(** * GD32W51x peripheral drivers: EXTI and GPIO

    A shallow embedding of [gd32w51x_gpio.c] and [gd32w51x_exti.c].

    - A [uint32_t] is a [Z]; wrap-around is written out with [wrap32].
    - A memory-mapped register is named by the peripheral block it lives in
      and its role in that block ([GPIO_CTL gpio_periph], [EXTI_PD], ...).
    - The microcontroller state [mcu] holds the register file together with
      the chronological trace of bus accesses the driver has performed, so
      that write sequences can be stated access for access.
    - Driver routines are computations in a small state monad over [mcu]. *)

From Stdlib Require Import ZArith List Bool Lia Btauto.
Import ListNotations.

Local Open Scope Z_scope.

(** ** Machine integers *)

Definition wrap32 (x : Z) : Z := x mod 2 ^ 32.

(** [~x] on a [uint32_t]. *)
Definition not32 (x : Z) : Z := wrap32 (Z.lnot x).

(** ** Registers *)

Inductive gpio_reg : Set :=
| CTL | OMODE | OSPD | PUD | ISTAT | OCTL | BOP | LOCK
| AFSEL0 | AFSEL1 | BC | TG | SCFG.

Inductive exti_reg : Set :=
| INTEN | EVEN | RTEN | FTEN | SWIEV | PD | SECCFG | PRIVCFG | LOCKCFG.

(** A register is a GPIO register of some port, an EXTI register, or a
    register of the clock and reset unit (named by its offset), which the
    GPIO driver reaches only through that unit's reset primitives. *)
Inductive reg : Set :=
| GPIO (gpio_periph : Z) (r : gpio_reg)
| EXTI (r : exti_reg)
| RCU (offset : Z).

Definition gpio_reg_eqb (a b : gpio_reg) : bool :=
  match a, b with
  | CTL, CTL | OMODE, OMODE | OSPD, OSPD | PUD, PUD | ISTAT, ISTAT
  | OCTL, OCTL | BOP, BOP | LOCK, LOCK | AFSEL0, AFSEL0 | AFSEL1, AFSEL1
  | BC, BC | TG, TG | SCFG, SCFG => true
  | _, _ => false
  end.

Definition exti_reg_eqb (a b : exti_reg) : bool :=
  match a, b with
  | INTEN, INTEN | EVEN, EVEN | RTEN, RTEN | FTEN, FTEN | SWIEV, SWIEV
  | PD, PD | SECCFG, SECCFG | PRIVCFG, PRIVCFG | LOCKCFG, LOCKCFG => true
  | _, _ => false
  end.

Definition reg_eqb (a b : reg) : bool :=
  match a, b with
  | GPIO p r, GPIO q s => (p =? q) && gpio_reg_eqb r s
  | EXTI r, EXTI s => exti_reg_eqb r s
  | RCU a, RCU b => a =? b
  | _, _ => false
  end.

(** The register accessors of the headers, [GPIO_CTL(gpiox)] and friends. *)
Definition GPIO_CTL (gpiox : Z) : reg := GPIO gpiox CTL.
Definition GPIO_OMODE (gpiox : Z) : reg := GPIO gpiox OMODE.
Definition GPIO_OSPD (gpiox : Z) : reg := GPIO gpiox OSPD.
Definition GPIO_PUD (gpiox : Z) : reg := GPIO gpiox PUD.
Definition GPIO_ISTAT (gpiox : Z) : reg := GPIO gpiox ISTAT.
Definition GPIO_OCTL (gpiox : Z) : reg := GPIO gpiox OCTL.
Definition GPIO_BOP (gpiox : Z) : reg := GPIO gpiox BOP.
Definition GPIO_LOCK (gpiox : Z) : reg := GPIO gpiox LOCK.
Definition GPIO_AFSEL0 (gpiox : Z) : reg := GPIO gpiox AFSEL0.
Definition GPIO_AFSEL1 (gpiox : Z) : reg := GPIO gpiox AFSEL1.
Definition GPIO_BC (gpiox : Z) : reg := GPIO gpiox BC.
Definition GPIO_TG (gpiox : Z) : reg := GPIO gpiox TG.
Definition GPIO_SCFG (gpiox : Z) : reg := GPIO gpiox SCFG.

Definition EXTI_INTEN : reg := EXTI INTEN.
Definition EXTI_EVEN : reg := EXTI EVEN.
Definition EXTI_RTEN : reg := EXTI RTEN.
Definition EXTI_FTEN : reg := EXTI FTEN.
Definition EXTI_SWIEV : reg := EXTI SWIEV.
Definition EXTI_PD : reg := EXTI PD.
Definition EXTI_SECCFG : reg := EXTI SECCFG.
Definition EXTI_PRIVCFG : reg := EXTI PRIVCFG.
Definition EXTI_LOCK : reg := EXTI LOCKCFG.

(** ** Microcontroller state and bus accesses *)

Inductive access : Set :=
| Rd (r : reg)
| Wr (r : reg) (v : Z).

Record mcu : Type := MkMcu {
  regs : reg -> Z;
  trace : list access
}.

(** Modelled from the spec: what a register holds after a store is a fact of
    the silicon, which no source file describes.  The spec calls the pending
    register a clear-by-write-1 register (and [exti_flag_clear] is documented
    as clearing the pending flag by storing the line mask into it): a store
    of [v] to [EXTI_PD] clears the bits set in [v] and keeps the others.
    Every other register is taken as plain storage and keeps what was last
    stored. *)
Definition latch (r : reg) (old v : Z) : Z :=
  match r with
  | EXTI PD => Z.land old (Z.lnot v)
  | _ => v
  end.

Definition upd (f : reg -> Z) (r : reg) (v : Z) : reg -> Z :=
  fun r' => if reg_eqb r r' then v else f r'.

(** ** The driver monad *)

Definition M (A : Type) : Type := mcu -> A * mcu.

Definition ret {A : Type} (a : A) : M A := fun st => (a, st).

Definition bind {A B : Type} (m : M A) (k : A -> M B) : M B :=
  fun st => let (a, st') := m st in k a st'.

Declare Scope drv_scope.
Delimit Scope drv_scope with drv.
Notation "x <- m ;; k" := (bind m (fun x => k))
  (at level 61, m at next level, right associativity) : drv_scope.
Notation "m ;; k" := (bind m (fun _ => k))
  (at level 61, right associativity) : drv_scope.
Local Open Scope drv_scope.

(** Reading a register: [x = REG;] *)
Definition load (r : reg) : M Z :=
  fun st => (regs st r, MkMcu (regs st) (trace st ++ [Rd r])).

(** Writing a register: [REG = v;] *)
Definition store (r : reg) (v : Z) : M unit :=
  fun st => (tt, MkMcu (upd (regs st) r (latch r (regs st r) v))
                       (trace st ++ [Wr r v])).

(** [REG |= v;] and [REG &= v;] are a load followed by a store. *)
Definition or_assign (r : reg) (v : Z) : M unit :=
  x <- load r ;; store r (Z.lor x v).

Definition and_assign (r : reg) (v : Z) : M unit :=
  x <- load r ;; store r (Z.land x v).

(** The state a [void] routine leaves behind, and the value a routine
    returns. *)
Definition exec {A : Type} (m : M A) (st : mcu) : mcu := snd (m st).
Definition eval {A : Type} (m : M A) (st : mcu) : A := fst (m st).

(** [for(i = lo; i < lo + n; i++) s = body(i, s);] on the local variables
    [s]. *)
Fixpoint for_loop {L : Type} (n : nat) (lo : Z) (body : Z -> L -> L) (s : L)
  : L :=
  match n with
  | O => s
  | S n' => for_loop n' (lo + 1) body (body lo s)
  end.

(** ** Status values *)

(** Modelled from the spec: the two-valued flag status of the device header
    ([typedef enum {RESET = 0, SET = !RESET} FlagStatus;], also used as
    [bit_status]); the header is not among the sources.  The drivers compare
    [RESET] against masked register values, so it is the integer zero. *)
Definition RESET : Z := 0.
Definition SET : Z := 1.

(** ** gd32w51x_gpio.c *)

(** Modelled from the spec: the field macros of [gd32w51x_gpio.h], which is
    not among the sources.  A pin owns a field of fixed width (2 bits for
    mode and pull-up/down, 4 bits for the alternate function) at offset
    [index * field_width]; the mask macro is the all-ones field shifted to
    that offset, the set macro is the value shifted to that offset, as a
    [uint32_t]. *)
Definition GPIO_MODE_MASK (n : Z) : Z := wrap32 (Z.shiftl 0x3 (2 * n)).
Definition GPIO_MODE_SET (n mode : Z) : Z := wrap32 (Z.shiftl mode (2 * n)).
Definition GPIO_PUPD_MASK (n : Z) : Z := wrap32 (Z.shiftl 0x3 (2 * n)).
Definition GPIO_PUPD_SET (n pupd : Z) : Z := wrap32 (Z.shiftl pupd (2 * n)).
Definition GPIO_AFR_MASK (n : Z) : Z := wrap32 (Z.shiftl 0xF (4 * n)).
Definition GPIO_AFR_SET (n af : Z) : Z := wrap32 (Z.shiftl af (4 * n)).

(** The loop test [(1U << i) & pin]. *)
Definition pin_selected (i pin : Z) : bool :=
  negb (Z.land (wrap32 (Z.shiftl 1 i)) pin =? 0).

(** Body of the loop of [gpio_mode_set], on the locals [(ctl, pupd)]. *)
Definition gpio_mode_set_body (mode pull_up_down pin i : Z) (s : Z * Z)
  : Z * Z :=
  let (ctl, pupd) := s in
  if pin_selected i pin then
    let ctl := Z.land ctl (not32 (GPIO_MODE_MASK i)) in
    let ctl := Z.lor ctl (GPIO_MODE_SET i mode) in
    let pupd := Z.land pupd (not32 (GPIO_PUPD_MASK i)) in
    let pupd := Z.lor pupd (GPIO_PUPD_SET i pull_up_down) in
    (ctl, pupd)
  else (ctl, pupd).

Definition gpio_mode_set (gpio_periph mode pull_up_down pin : Z) : M unit :=
  ctl <- load (GPIO_CTL gpio_periph) ;;
  pupd <- load (GPIO_PUD gpio_periph) ;;
  let s := for_loop 16 0 (gpio_mode_set_body mode pull_up_down pin)
                    (ctl, pupd) in
  store (GPIO_CTL gpio_periph) (fst s) ;;
  store (GPIO_PUD gpio_periph) (snd s).

Definition gpio_bit_set (gpio_periph pin : Z) : M unit :=
  store (GPIO_BOP gpio_periph) pin.

Definition gpio_bit_reset (gpio_periph pin : Z) : M unit :=
  store (GPIO_BC gpio_periph) pin.

Definition gpio_bit_write (gpio_periph pin bit_value : Z) : M unit :=
  if negb (RESET =? bit_value) then
    store (GPIO_BOP gpio_periph) pin
  else
    store (GPIO_BC gpio_periph) pin.

(** Bodies of the two loops of [gpio_af_set], on [afrl] and on [afrh]. *)
Definition gpio_af_set_body_low (alt_func_num pin i afrl : Z) : Z :=
  if pin_selected i pin then
    let afrl := Z.land afrl (not32 (GPIO_AFR_MASK i)) in
    Z.lor afrl (GPIO_AFR_SET i alt_func_num)
  else afrl.

Definition gpio_af_set_body_high (alt_func_num pin i afrh : Z) : Z :=
  if pin_selected i pin then
    let afrh := Z.land afrh (not32 (GPIO_AFR_MASK (i - 8))) in
    Z.lor afrh (GPIO_AFR_SET (i - 8) alt_func_num)
  else afrh.

Definition gpio_af_set (gpio_periph alt_func_num pin : Z) : M unit :=
  afrl <- load (GPIO_AFSEL0 gpio_periph) ;;
  afrh <- load (GPIO_AFSEL1 gpio_periph) ;;
  let afrl := for_loop 8 0 (gpio_af_set_body_low alt_func_num pin) afrl in
  let afrh := for_loop 8 8 (gpio_af_set_body_high alt_func_num pin) afrh in
  store (GPIO_AFSEL0 gpio_periph) afrl ;;
  store (GPIO_AFSEL1 gpio_periph) afrh.

Definition gpio_pin_lock (gpio_periph pin : Z) : M unit :=
  let lock := 0x00010000 in
  let lock := Z.lor lock pin in
  store (GPIO_LOCK gpio_periph) lock ;;
  store (GPIO_LOCK gpio_periph) pin ;;
  store (GPIO_LOCK gpio_periph) lock ;;
  lock <- load (GPIO_LOCK gpio_periph) ;;
  lock <- load (GPIO_LOCK gpio_periph) ;;
  ret tt.

Definition gpio_bit_toggle (gpio_periph pin : Z) : M unit :=
  store (GPIO_TG gpio_periph) pin.

Definition gpio_bit_set_sec_cfg (gpio_periph pin : Z) : M unit :=
  or_assign (GPIO_SCFG gpio_periph) pin.

Definition gpio_bit_reset_sec_cfg (gpio_periph pin : Z) : M unit :=
  seccfg <- load (GPIO_SCFG gpio_periph) ;;
  let seccfg := Z.land seccfg (not32 pin) in
  store (GPIO_SCFG gpio_periph) seccfg.

Definition gpio_sec_cfg_bit_get (gpio_periph pin : Z) : M Z :=
  x <- load (GPIO_SCFG gpio_periph) ;;
  if negb (RESET =? Z.land x pin) then ret SET else ret RESET.

(** [gpio_deinit] dispatches on the port to the reset primitives of the
    clock and reset unit.  The port base addresses, the reset identifiers and
    the two primitives come from headers and a driver that are not among the
    sources; they are parameters here. *)
Section GpioDeinit.

Variables GPIOA GPIOB GPIOC : Z.
Variables RCU_GPIOARST RCU_GPIOBRST RCU_GPIOCRST : Z.
Variables rcu_periph_reset_enable rcu_periph_reset_disable : Z -> M unit.

Definition gpio_deinit (gpio_periph : Z) : M unit :=
  if gpio_periph =? GPIOA then
    rcu_periph_reset_enable RCU_GPIOARST ;;
    rcu_periph_reset_disable RCU_GPIOARST
  else if gpio_periph =? GPIOB then
    rcu_periph_reset_enable RCU_GPIOBRST ;;
    rcu_periph_reset_disable RCU_GPIOBRST
  else if gpio_periph =? GPIOC then
    rcu_periph_reset_enable RCU_GPIOCRST ;;
    rcu_periph_reset_disable RCU_GPIOCRST
  else
    ret tt.

End GpioDeinit.

(** Stand-ins for the reset primitives of the clock and reset unit, which
    set and clear the reset bit of a peripheral in that unit's register. *)
Definition rcu_reset_on (periph : Z) : M unit :=
  or_assign (RCU 0x10) (Z.shiftl 1 periph).
Definition rcu_reset_off (periph : Z) : M unit :=
  and_assign (RCU 0x10) (not32 (Z.shiftl 1 periph)).

(** ** gd32w51x_exti.c *)

Definition EXTI_INTEN_RESET_VAL : Z := 0x0F940000.
Definition EXTI_REG_RESET_VAL : Z := 0x00000000.

Definition exti_deinit : M unit :=
  store EXTI_INTEN EXTI_INTEN_RESET_VAL ;;
  store EXTI_EVEN EXTI_REG_RESET_VAL ;;
  store EXTI_RTEN EXTI_REG_RESET_VAL ;;
  store EXTI_FTEN EXTI_REG_RESET_VAL ;;
  store EXTI_SWIEV EXTI_REG_RESET_VAL ;;
  store EXTI_SECCFG EXTI_REG_RESET_VAL ;;
  store EXTI_PRIVCFG EXTI_REG_RESET_VAL.

Definition exti_interrupt_enable (linex : Z) : M unit :=
  or_assign EXTI_INTEN linex.

Definition exti_interrupt_disable (linex : Z) : M unit :=
  and_assign EXTI_INTEN (not32 linex).

Definition exti_event_enable (linex : Z) : M unit :=
  or_assign EXTI_EVEN linex.

Definition exti_event_disable (linex : Z) : M unit :=
  and_assign EXTI_EVEN (not32 linex).

Definition exti_software_interrupt_enable (linex : Z) : M unit :=
  or_assign EXTI_SWIEV linex.

Definition exti_software_interrupt_disable (linex : Z) : M unit :=
  and_assign EXTI_SWIEV (not32 linex).

Definition exti_security_enable (linex : Z) : M unit :=
  or_assign EXTI_SECCFG linex.

Definition exti_security_disable (linex : Z) : M unit :=
  and_assign EXTI_SECCFG (not32 linex).

Definition exti_privilege_enable (linex : Z) : M unit :=
  or_assign EXTI_PRIVCFG linex.

Definition exti_privilege_disable (linex : Z) : M unit :=
  and_assign EXTI_PRIVCFG (not32 linex).

Definition exti_flag_get (linex : Z) : M Z :=
  pd <- load EXTI_PD ;;
  if negb (RESET =? Z.land pd linex) then ret SET else ret RESET.

Definition exti_flag_clear (linex : Z) : M unit :=
  store EXTI_PD linex.

Definition exti_interrupt_flag_get (linex : Z) : M Z :=
  pd <- load EXTI_PD ;;
  if negb (RESET =? Z.land pd linex) then ret SET else ret RESET.

Definition exti_interrupt_flag_clear (linex : Z) : M unit :=
  store EXTI_PD linex.

(** Sample states: every register holds [v] and nothing was accessed yet. *)
Definition mcu_all (v : Z) : mcu := MkMcu (fun _ => v) [].

(** The single-bit toggles of the two drivers: the register, the routine
    that sets the selected bits and the routine that clears them. *)
Definition toggle_pairs (gpio_periph : Z)
  : list (reg * (Z -> M unit) * (Z -> M unit)) :=
  [ (EXTI_INTEN, exti_interrupt_enable, exti_interrupt_disable);
    (EXTI_EVEN, exti_event_enable, exti_event_disable);
    (EXTI_SWIEV, exti_software_interrupt_enable,
                 exti_software_interrupt_disable);
    (EXTI_SECCFG, exti_security_enable, exti_security_disable);
    (EXTI_PRIVCFG, exti_privilege_enable, exti_privilege_disable);
    (GPIO_SCFG gpio_periph, gpio_bit_set_sec_cfg gpio_periph,
                            gpio_bit_reset_sec_cfg gpio_periph) ].

(** ** Reading fields back *)

(** The [w]-bit field of pin [i] in a packed register value [x]. *)
Definition field (w x i : Z) : Z := Z.land (Z.shiftr x (w * i)) (Z.ones w).

(** The 2-bit field at position [2 * i], the 4-bit field at [4 * i]. *)
Definition field2 (x i : Z) : Z := Z.land (Z.shiftr x (2 * i)) 0x3.
Definition field4 (x i : Z) : Z := Z.land (Z.shiftr x (4 * i)) 0xF.

(** One clear-then-set step of a packing loop, for a field of width [w]. *)
Definition clear_set (w i v x : Z) : Z :=
  Z.lor (Z.land x (not32 (wrap32 (Z.shiftl (Z.ones w) (w * i)))))
        (wrap32 (Z.shiftl v (w * i))).

(** The shape shared by the packing loops: pin [i] updates field [i - off]. *)
Definition pack_body (w off v pin i x : Z) : Z :=
  if pin_selected i pin then clear_set w (i - off) v x else x.

(** [x |-> (x & a) | b], the form of every packing step. *)
Definition mask_or (a b x : Z) : Z := Z.lor (Z.land x a) b.

(** ** The remaining routines of gd32w51x_gpio.c *)

(** [(uint16_t)x] *)
Definition wrap16 (x : Z) : Z := x mod 2 ^ 16.

(** Modelled from the spec: the output-speed field macros of
    [gd32w51x_gpio.h], which is not among the sources; 2-bit fields at
    offset [index * field_width], like the mode fields. *)
Definition GPIO_OSPEED_MASK (n : Z) : Z := wrap32 (Z.shiftl 0x3 (2 * n)).
Definition GPIO_OSPEED_SET (n speed : Z) : Z :=
  wrap32 (Z.shiftl speed (2 * n)).

Definition gpio_output_options_set_body (speed pin i ospeed : Z) : Z :=
  if pin_selected i pin then
    let ospeed := Z.land ospeed (not32 (GPIO_OSPEED_MASK i)) in
    Z.lor ospeed (GPIO_OSPEED_SET i speed)
  else ospeed.

(** The open-drain constant [GPIO_OTYPE_OD] comes from the absent header and
    is a parameter. *)
Section GpioOutputOptions.

Variable GPIO_OTYPE_OD : Z.

Definition gpio_output_options_set (gpio_periph otype speed pin : Z)
  : M unit :=
  (if GPIO_OTYPE_OD =? otype then
     or_assign (GPIO_OMODE gpio_periph) pin
   else
     and_assign (GPIO_OMODE gpio_periph) (not32 pin)) ;;
  ospeed <- load (GPIO_OSPD gpio_periph) ;;
  let ospeed := for_loop 16 0 (gpio_output_options_set_body speed pin)
                         ospeed in
  store (GPIO_OSPD gpio_periph) ospeed.

End GpioOutputOptions.

Definition gpio_port_write (gpio_periph data : Z) : M unit :=
  store (GPIO_OCTL gpio_periph) data.

Definition gpio_input_bit_get (gpio_periph pin : Z) : M Z :=
  x <- load (GPIO_ISTAT gpio_periph) ;;
  if negb (RESET =? Z.land x pin) then ret SET else ret RESET.

Definition gpio_input_port_get (gpio_periph : Z) : M Z :=
  x <- load (GPIO_ISTAT gpio_periph) ;;
  ret (wrap16 x).

Definition gpio_output_bit_get (gpio_periph pin : Z) : M Z :=
  x <- load (GPIO_OCTL gpio_periph) ;;
  if negb (RESET =? Z.land x pin) then ret SET else ret RESET.

Definition gpio_output_port_get (gpio_periph : Z) : M Z :=
  x <- load (GPIO_OCTL gpio_periph) ;;
  ret (wrap16 x).

Definition gpio_port_toggle (gpio_periph : Z) : M unit :=
  store (GPIO_TG gpio_periph) 0x0000FFFF.

(** ** The remaining routines of gd32w51x_exti.c *)

(** The enumerators of [exti_mode_enum] and [exti_trig_type_enum] come from
    the absent header and are parameters.  [EXTI_TRIG_NONE] shares the
    default arm of the trigger switch, so its value plays no part. *)
Section ExtiInit.

Variables EXTI_INTERRUPT EXTI_EVENT : Z.
Variables EXTI_TRIG_RISING EXTI_TRIG_FALLING EXTI_TRIG_BOTH : Z.

Definition exti_init (linex mode trig_type : Z) : M unit :=
  and_assign EXTI_INTEN (not32 linex) ;;
  and_assign EXTI_EVEN (not32 linex) ;;
  and_assign EXTI_RTEN (not32 linex) ;;
  and_assign EXTI_FTEN (not32 linex) ;;
  (if mode =? EXTI_INTERRUPT then
     or_assign EXTI_INTEN linex
   else if mode =? EXTI_EVENT then
     or_assign EXTI_EVEN linex
   else
     ret tt) ;;
  (if trig_type =? EXTI_TRIG_RISING then
     or_assign EXTI_RTEN linex ;;
     and_assign EXTI_FTEN (not32 linex)
   else if trig_type =? EXTI_TRIG_FALLING then
     and_assign EXTI_RTEN (not32 linex) ;;
     or_assign EXTI_FTEN linex
   else if trig_type =? EXTI_TRIG_BOTH then
     or_assign EXTI_RTEN linex ;;
     or_assign EXTI_FTEN linex
   else
     ret tt).

End ExtiInit.

(** The status getters of the two drivers: the register each one reads and
    the routine, which takes the pin or line mask. *)
Definition bit_getters (gpio_periph : Z) : list (reg * (Z -> M Z)) :=
  [ (GPIO_ISTAT gpio_periph, gpio_input_bit_get gpio_periph);
    (GPIO_OCTL gpio_periph, gpio_output_bit_get gpio_periph);
    (GPIO_SCFG gpio_periph, gpio_sec_cfg_bit_get gpio_periph);
    (EXTI_PD, exti_flag_get);
    (EXTI_PD, exti_interrupt_flag_get) ].

(** ** Bit-level facts *)

Lemma wrap32_bit (x b : Z) :
  Z.testbit (wrap32 x) b = (b <? 32) && Z.testbit x b.
Proof.
  unfold wrap32. apply Z.testbit_mod_pow2. lia.
Qed.

Lemma not32_bit (x b : Z) :
  0 <= b -> Z.testbit (not32 x) b = (b <? 32) && negb (Z.testbit x b).
Proof.
  intros Hb. unfold not32. rewrite wrap32_bit, Z.lnot_spec by exact Hb.
  reflexivity.
Qed.

Lemma testbit_small (v w n : Z) :
  0 <= v < 2 ^ w -> w <= n -> Z.testbit v n = false.
Proof.
  intros Hv Hn.
  destruct (Z_lt_le_dec w 0) as [Hw | Hw].
  - rewrite Z.pow_neg_r in Hv by exact Hw. lia.
  - rewrite <- (Z.mod_small v (2 ^ w)) by exact Hv.
    apply Z.mod_pow2_bits_high. lia.
Qed.

Lemma pin_selected_spec (i pin : Z) :
  0 <= i < 32 -> pin_selected i pin = Z.testbit pin i.
Proof.
  intros Hi. unfold pin_selected.
  assert (Hbit : forall n, 0 <= n ->
            Z.testbit (Z.land (wrap32 (Z.shiftl 1 i)) pin) n
            = (n =? i) && Z.testbit pin n).
  { intros n Hn. rewrite Z.land_spec, wrap32_bit, Z.shiftl_spec by exact Hn.
    destruct (Z.eqb_spec n i) as [-> | Hne].
    - rewrite Z.sub_diag. simpl Z.testbit at 1.
      destruct (Z.ltb_spec i 32); [reflexivity | lia].
    - replace (Z.testbit 1 (n - i)) with false.
      + rewrite andb_false_r. reflexivity.
      + symmetry. destruct (Z_lt_le_dec (n - i) 0) as [Hlt | Hge].
        * apply Z.testbit_neg_r. exact Hlt.
        * apply (testbit_small 1 1); lia. }
  destruct (Z.testbit pin i) eqn:Hp.
  - destruct (Z.eqb_spec (Z.land (wrap32 (Z.shiftl 1 i)) pin) 0) as [H0 | H0];
      [ | reflexivity].
    exfalso. specialize (Hbit i (proj1 Hi)).
    rewrite H0, Z.bits_0, Z.eqb_refl, Hp in Hbit. discriminate.
  - replace (Z.land (wrap32 (Z.shiftl 1 i)) pin) with 0; [reflexivity | ].
    symmetry. apply Z.bits_inj'. intros n Hn. rewrite Hbit, Z.bits_0 by exact Hn.
    destruct (Z.eqb_spec n i) as [-> | Hne]; [rewrite Hp | ]; reflexivity.
Qed.

Lemma pin_selected_zero (i : Z) : pin_selected i 0 = false.
Proof.
  unfold pin_selected. rewrite Z.land_0_r. reflexivity.
Qed.

Lemma clear_set_bit (w i v x b : Z) :
  0 <= w -> 0 <= b ->
  Z.testbit (clear_set w i v x) b
  = (Z.testbit x b
       && ((b <? 32) && negb ((w * i <=? b) && (b <? w * i + w))))
    || ((b <? 32) && Z.testbit v (b - w * i)).
Proof.
  intros Hw Hb. unfold clear_set.
  rewrite Z.lor_spec, Z.land_spec, not32_bit, !wrap32_bit by exact Hb.
  rewrite !Z.shiftl_spec by exact Hb.
  rewrite Z.testbit_ones by exact Hw.
  replace ((0 <=? b - w * i) && (b - w * i <? w))
    with ((w * i <=? b) && (b <? w * i + w)).
  - destruct (b <? 32); simpl; reflexivity.
  - destruct (Z.leb_spec (w * i) b), (Z.leb_spec 0 (b - w * i)),
      (Z.ltb_spec b (w * i + w)), (Z.ltb_spec (b - w * i) w);
      try reflexivity; lia.
Qed.

Lemma field_bit (w x i n : Z) :
  0 <= w -> 0 <= n ->
  Z.testbit (field w x i) n = (n <? w) && Z.testbit x (n + w * i).
Proof.
  intros Hw Hn. unfold field.
  rewrite Z.land_spec, Z.shiftr_spec, Z.testbit_ones_nonneg by assumption.
  apply andb_comm.
Qed.

(** A selected pin's field reads back as the value packed into it. *)
Lemma field_clear_set_same (w i v x : Z) :
  0 < w -> 0 <= i -> w * i + w <= 32 -> 0 <= v < 2 ^ w ->
  field w (clear_set w i v x) i = v.
Proof.
  intros Hw Hi Hfit Hv. apply Z.bits_inj'. intros n Hn.
  rewrite field_bit by lia.
  destruct (Z.ltb_spec n w) as [Hlt | Hge]; simpl.
  - rewrite clear_set_bit by lia.
    replace (n + w * i - w * i) with n by lia.
    destruct (Z.ltb_spec (n + w * i) 32); [ | lia].
    destruct (Z.leb_spec (w * i) (n + w * i)); [ | lia].
    destruct (Z.ltb_spec (n + w * i) (w * i + w)); [ | lia].
    simpl. rewrite andb_false_r. reflexivity.
  - symmetry. apply (testbit_small v w); assumption.
Qed.

(** Every other field is left as it was. *)
Lemma field_clear_set_other (w i j v x : Z) :
  0 < w -> 0 <= i -> 0 <= j -> w * j + w <= 32 -> 0 <= v < 2 ^ w ->
  i <> j ->
  field w (clear_set w i v x) j = field w x j.
Proof.
  intros Hw Hi Hj Hfit Hv Hne. apply Z.bits_inj'. intros n Hn.
  rewrite !field_bit by lia.
  destruct (Z.ltb_spec n w) as [Hlt | Hge]; simpl; [ | reflexivity].
  rewrite clear_set_bit by lia.
  destruct (Z.ltb_spec (n + w * j) 32); [ | nia].
  assert (Hout : (w * i <=? n + w * j) && (n + w * j <? w * i + w) = false).
  { destruct (Z.leb_spec (w * i) (n + w * j)),
      (Z.ltb_spec (n + w * j) (w * i + w)); try reflexivity.
    exfalso. apply Hne. nia. }
  rewrite Hout. simpl.
  replace (Z.testbit v (n + w * j - w * i)) with false.
  - rewrite andb_true_r, orb_false_r. reflexivity.
  - symmetry. destruct (Z_lt_le_dec j i) as [Hji | Hij].
    + apply Z.testbit_neg_r. nia.
    + apply (testbit_small v w); [exact Hv | nia].
Qed.

(** The packing loop over pins [lo .. lo + n - 1]: afterwards the field of
    every selected pin in that range holds [v], every other field is
    untouched. *)
Lemma pack_loop_field (w off v pin : Z) :
  0 < w -> 0 <= off -> 0 <= v < 2 ^ w ->
  forall (n : nat) (lo x j : Z),
    off <= lo -> lo + Z.of_nat n <= 32 ->
    w * (lo - off + Z.of_nat n) <= 32 ->
    0 <= j -> w * j + w <= 32 ->
    field w (for_loop n lo (pack_body w off v pin) x) j
    = if (lo - off <=? j) && (j <? lo - off + Z.of_nat n)
         && Z.testbit pin (j + off)
      then v else field w x j.
Proof.
  intros Hw Hoff Hv n.
  induction n as [ | n IH]; intros lo x j Hlo Hhi Hfit Hj Hjfit.
  - simpl for_loop.
    destruct (Z.leb_spec (lo - off) j), (Z.ltb_spec j (lo - off + Z.of_nat 0));
      try reflexivity; lia.
  - simpl for_loop. rewrite IH by lia.
    unfold pack_body. rewrite pin_selected_spec by lia.
    destruct (Z.eq_dec j (lo - off)) as [-> | Hne].
    + replace (lo - off + off) with lo by lia.
      destruct (Z.leb_spec (lo + 1 - off) (lo - off)); [lia | ].
      destruct (Z.leb_spec (lo - off) (lo - off)); [ | lia].
      destruct (Z.ltb_spec (lo - off) (lo - off + Z.of_nat (S n))); [ | lia].
      simpl. destruct (Z.testbit pin lo); [ | reflexivity].
      apply field_clear_set_same; try assumption; lia.
    + assert (Hsame : field w (if Z.testbit pin lo
                               then clear_set w (lo - off) v x else x) j
                      = field w x j).
      { destruct (Z.testbit pin lo); [ | reflexivity].
        apply field_clear_set_other; try assumption; lia. }
      rewrite Hsame.
      destruct (Z.leb_spec (lo + 1 - off) j), (Z.leb_spec (lo - off) j),
        (Z.ltb_spec j (lo + 1 - off + Z.of_nat n)),
        (Z.ltb_spec j (lo - off + Z.of_nat (S n)));
        try reflexivity; lia.
Qed.

(** ** Packing steps as mask-and-or maps *)

Lemma mask_or_compose (a1 b1 a2 b2 x : Z) :
  mask_or a2 b2 (mask_or a1 b1 x)
  = mask_or (Z.land a1 a2) (Z.lor (Z.land b1 a2) b2) x.
Proof.
  unfold mask_or. apply Z.bits_inj'. intros n _.
  rewrite !Z.lor_spec, !Z.land_spec, !Z.lor_spec, !Z.land_spec.
  btauto.
Qed.

Lemma mask_or_idempotent (a b x : Z) :
  mask_or a b (mask_or a b x) = mask_or a b x.
Proof.
  unfold mask_or. apply Z.bits_inj'. intros n _.
  rewrite !Z.lor_spec, !Z.land_spec, !Z.lor_spec, !Z.land_spec.
  btauto.
Qed.

Lemma pack_body_mask_or (w off v pin i : Z) :
  exists a b, forall x, pack_body w off v pin i x = mask_or a b x.
Proof.
  unfold pack_body. destruct (pin_selected i pin).
  - eexists. eexists. intros x. unfold clear_set, mask_or. reflexivity.
  - exists (-1), 0. intros x. unfold mask_or.
    rewrite Z.land_m1_r, Z.lor_0_r. reflexivity.
Qed.

Lemma pack_loop_mask_or (w off v pin : Z) (n : nat) :
  forall lo, exists a b,
    forall x, for_loop n lo (pack_body w off v pin) x = mask_or a b x.
Proof.
  induction n as [ | n IH]; intros lo.
  - exists (-1), 0. intros x. unfold mask_or. simpl.
    rewrite Z.land_m1_r, Z.lor_0_r. reflexivity.
  - destruct (pack_body_mask_or w off v pin lo) as (a1 & b1 & H1).
    destruct (IH (lo + 1)) as (a2 & b2 & H2).
    exists (Z.land a1 a2), (Z.lor (Z.land b1 a2) b2). intros x.
    simpl for_loop. rewrite H2, H1. apply mask_or_compose.
Qed.

(** Running a packing loop on its own result changes nothing: no
    assumption on the value packed or on the selector is needed. *)
Lemma pack_loop_idempotent (w off v pin : Z) (n : nat) (lo x : Z) :
  for_loop n lo (pack_body w off v pin)
           (for_loop n lo (pack_body w off v pin) x)
  = for_loop n lo (pack_body w off v pin) x.
Proof.
  destruct (pack_loop_mask_or w off v pin n lo) as (a & b & H).
  rewrite !H. apply mask_or_idempotent.
Qed.

(** With nothing selected a packing loop returns its input. *)
Lemma pack_loop_zero (w off v : Z) (n : nat) :
  forall lo x, for_loop n lo (pack_body w off v 0) x = x.
Proof.
  induction n as [ | n IH]; intros lo x; simpl for_loop.
  - reflexivity.
  - rewrite IH. unfold pack_body. rewrite pin_selected_zero. reflexivity.
Qed.

(** ** The loops of the source are packing loops *)

Lemma gpio_mode_set_loop (mode pull_up_down pin : Z) (n : nat) :
  forall lo ctl pupd,
    for_loop n lo (gpio_mode_set_body mode pull_up_down pin) (ctl, pupd)
    = (for_loop n lo (pack_body 2 0 mode pin) ctl,
       for_loop n lo (pack_body 2 0 pull_up_down pin) pupd).
Proof.
  induction n as [ | n IH]; intros lo ctl pupd; simpl for_loop.
  - reflexivity.
  - rewrite <- IH. f_equal.
    unfold gpio_mode_set_body, pack_body, clear_set.
    unfold GPIO_MODE_MASK, GPIO_MODE_SET, GPIO_PUPD_MASK, GPIO_PUPD_SET.
    rewrite Z.sub_0_r. destruct (pin_selected lo pin); reflexivity.
Qed.

Lemma gpio_af_set_loop_low (alt_func_num pin : Z) (n : nat) :
  forall lo afrl,
    for_loop n lo (gpio_af_set_body_low alt_func_num pin) afrl
    = for_loop n lo (pack_body 4 0 alt_func_num pin) afrl.
Proof.
  induction n as [ | n IH]; intros lo afrl; simpl for_loop.
  - reflexivity.
  - rewrite <- IH. f_equal.
    unfold gpio_af_set_body_low, pack_body, clear_set.
    unfold GPIO_AFR_MASK, GPIO_AFR_SET.
    rewrite Z.sub_0_r. destruct (pin_selected lo pin); reflexivity.
Qed.

Lemma gpio_af_set_loop_high (alt_func_num pin : Z) (n : nat) :
  forall lo afrh,
    for_loop n lo (gpio_af_set_body_high alt_func_num pin) afrh
    = for_loop n lo (pack_body 4 8 alt_func_num pin) afrh.
Proof.
  intros lo afrh. reflexivity.
Qed.

(** ** Register file after a routine *)

Lemma gpio_reg_eqb_refl (r : gpio_reg) : gpio_reg_eqb r r = true.
Proof. destruct r; reflexivity. Qed.

Lemma exti_reg_eqb_refl (r : exti_reg) : exti_reg_eqb r r = true.
Proof. destruct r; reflexivity. Qed.

Lemma reg_eqb_refl (r : reg) : reg_eqb r r = true.
Proof.
  destruct r as [p r | r | a]; simpl.
  - rewrite Z.eqb_refl, gpio_reg_eqb_refl. reflexivity.
  - apply exti_reg_eqb_refl.
  - apply Z.eqb_refl.
Qed.

Lemma reg_eqb_eq (r s : reg) : reg_eqb r s = true -> r = s.
Proof.
  destruct r as [p r | r | a], s as [q s | s | b]; simpl; try discriminate.
  - intros H. apply andb_prop in H. destruct H as [Hp Hr].
    apply Z.eqb_eq in Hp. subst q.
    destruct r, s; try discriminate; reflexivity.
  - destruct r, s; try discriminate; reflexivity.
  - intros H. apply Z.eqb_eq in H. subst b. reflexivity.
Qed.

Lemma upd_same (f : reg -> Z) (r : reg) (v : Z) : upd f r v r = v.
Proof. unfold upd. rewrite reg_eqb_refl. reflexivity. Qed.

Lemma upd_id (f : reg -> Z) (r s : reg) : upd f r (f r) s = f s.
Proof.
  unfold upd. destruct (reg_eqb r s) eqn:E; [ | reflexivity].
  apply reg_eqb_eq in E. subst s. reflexivity.
Qed.

Lemma gpio_mode_set_regs (gpio_periph mode pull_up_down pin : Z) (st : mcu)
    (r : reg) :
  regs (exec (gpio_mode_set gpio_periph mode pull_up_down pin) st) r
  = upd (upd (regs st) (GPIO_CTL gpio_periph)
             (for_loop 16 0 (pack_body 2 0 mode pin)
                       (regs st (GPIO_CTL gpio_periph))))
        (GPIO_PUD gpio_periph)
        (for_loop 16 0 (pack_body 2 0 pull_up_down pin)
                  (regs st (GPIO_PUD gpio_periph))) r.
Proof.
  unfold exec, gpio_mode_set, bind, load, store.
  cbn beta iota zeta delta [snd fst regs trace].
  rewrite gpio_mode_set_loop.
  unfold latch, GPIO_CTL, GPIO_PUD. reflexivity.
Qed.

Lemma gpio_af_set_regs (gpio_periph alt_func_num pin : Z) (st : mcu)
    (r : reg) :
  regs (exec (gpio_af_set gpio_periph alt_func_num pin) st) r
  = upd (upd (regs st) (GPIO_AFSEL0 gpio_periph)
             (for_loop 8 0 (pack_body 4 0 alt_func_num pin)
                       (regs st (GPIO_AFSEL0 gpio_periph))))
        (GPIO_AFSEL1 gpio_periph)
        (for_loop 8 8 (pack_body 4 8 alt_func_num pin)
                  (regs st (GPIO_AFSEL1 gpio_periph))) r.
Proof.
  unfold exec, gpio_af_set, bind, load, store.
  cbn beta iota zeta delta [snd fst regs trace].
  rewrite gpio_af_set_loop_low, gpio_af_set_loop_high.
  unfold latch, GPIO_AFSEL0, GPIO_AFSEL1. reflexivity.
Qed.

Lemma gpio_ctl_after_mode_set (gpio_periph mode pull_up_down pin : Z)
    (st : mcu) :
  regs (exec (gpio_mode_set gpio_periph mode pull_up_down pin) st)
       (GPIO_CTL gpio_periph)
  = for_loop 16 0 (pack_body 2 0 mode pin) (regs st (GPIO_CTL gpio_periph)).
Proof.
  rewrite gpio_mode_set_regs. unfold upd, GPIO_CTL, GPIO_PUD. simpl reg_eqb.
  rewrite Z.eqb_refl. reflexivity.
Qed.

Lemma gpio_pud_after_mode_set (gpio_periph mode pull_up_down pin : Z)
    (st : mcu) :
  regs (exec (gpio_mode_set gpio_periph mode pull_up_down pin) st)
       (GPIO_PUD gpio_periph)
  = for_loop 16 0 (pack_body 2 0 pull_up_down pin)
             (regs st (GPIO_PUD gpio_periph)).
Proof.
  rewrite gpio_mode_set_regs. apply upd_same.
Qed.

Lemma gpio_afsel0_after_af_set (gpio_periph alt_func_num pin : Z)
    (st : mcu) :
  regs (exec (gpio_af_set gpio_periph alt_func_num pin) st)
       (GPIO_AFSEL0 gpio_periph)
  = for_loop 8 0 (pack_body 4 0 alt_func_num pin)
             (regs st (GPIO_AFSEL0 gpio_periph)).
Proof.
  rewrite gpio_af_set_regs. unfold upd, GPIO_AFSEL0, GPIO_AFSEL1.
  simpl reg_eqb. rewrite Z.eqb_refl. reflexivity.
Qed.

Lemma gpio_afsel1_after_af_set (gpio_periph alt_func_num pin : Z)
    (st : mcu) :
  regs (exec (gpio_af_set gpio_periph alt_func_num pin) st)
       (GPIO_AFSEL1 gpio_periph)
  = for_loop 8 8 (pack_body 4 8 alt_func_num pin)
             (regs st (GPIO_AFSEL1 gpio_periph)).
Proof.
  rewrite gpio_af_set_regs. apply upd_same.
Qed.

Lemma field2_field (x i : Z) : field2 x i = field 2 x i.
Proof. reflexivity. Qed.

Lemma field4_field (x i : Z) : field4 x i = field 4 x i.
Proof. reflexivity. Qed.


(** ** GPIO: packing of the mode, pull-up/down and alternate-function fields *)

(** The example of the specification: pins 0 and 1 set to alternate-function
    mode with a pull-up, on registers that held all ones. *)
Example gpio_mode_set_pins_0_1 :
  let st' := exec (gpio_mode_set 0 2 1 0x0003) (mcu_all 0xFFFFFFFF) in
  regs st' (GPIO_CTL 0) = 0xFFFFFFFA /\ regs st' (GPIO_PUD 0) = 0xFFFFFFF5.
Proof. vm_compute. split; reflexivity. Qed.

(** C1: after [gpio_mode_set], whatever the registers held, for every port,
    every mode value and pull-up/down value of the documented 2-bit
    encodings (0..3) and every pin selector, the 2-bit field at position
    [2 * i] of GPIO_CTL (of GPIO_PUD) holds the mode (the pull-up/down
    value) for every pin [i] in [0,16) whose selector bit is set, and holds
    what it held before for every pin whose selector bit is clear. *)
Theorem gpio_mode_set_fields (st : mcu)
    (gpio_periph mode pull_up_down pin i : Z) :
  0 <= mode < 4 -> 0 <= pull_up_down < 4 -> 0 <= i < 16 ->
  let st' := exec (gpio_mode_set gpio_periph mode pull_up_down pin) st in
  field2 (regs st' (GPIO_CTL gpio_periph)) i
  = (if Z.testbit pin i then mode
     else field2 (regs st (GPIO_CTL gpio_periph)) i)
  /\
  field2 (regs st' (GPIO_PUD gpio_periph)) i
  = (if Z.testbit pin i then pull_up_down
     else field2 (regs st (GPIO_PUD gpio_periph)) i).
Proof.
  intros Hm Hu Hi st'. subst st'.
  rewrite gpio_ctl_after_mode_set, gpio_pud_after_mode_set.
  rewrite !field2_field.
  rewrite !(pack_loop_field 2 0) by (simpl Z.of_nat; lia).
  simpl Z.of_nat. rewrite Z.add_0_r, !Z.sub_0_r.
  destruct (Z.leb_spec 0 i); [ | lia].
  destruct (Z.ltb_spec i (0 + 16)); [ | lia].
  simpl. split; reflexivity.
Qed.

Lemma gpio_mode_set_fields_witness :
  0 <= 2 < 4 /\ 0 <= 1 < 4 /\ 0 <= 1 < 16 /\ 0 <= 5 < 16 /\
  let st' := exec (gpio_mode_set 7 2 1 0x0003) (mcu_all 0xFFFFFFFF) in
  field2 (regs st' (GPIO_CTL 7)) 1 = 2 /\
  field2 (regs st' (GPIO_PUD 7)) 1 = 1 /\
  field2 (regs st' (GPIO_CTL 7)) 5 = field2 0xFFFFFFFF 5 /\
  field2 (regs st' (GPIO_PUD 7)) 5 = field2 0xFFFFFFFF 5.
Proof.
  assert (Hm : 0 <= 2 < 4) by lia.
  assert (Hu : 0 <= 1 < 4) by lia.
  assert (H1 : 0 <= 1 < 16) by lia.
  assert (H5 : 0 <= 5 < 16) by lia.
  repeat (split; [assumption | ]).
  intros st'.
  destruct (gpio_mode_set_fields (mcu_all 0xFFFFFFFF) 7 2 1 0x0003 1
              Hm Hu H1) as [Hc1 Hp1].
  destruct (gpio_mode_set_fields (mcu_all 0xFFFFFFFF) 7 2 1 0x0003 5
              Hm Hu H5) as [Hc5 Hp5].
  exact (conj Hc1 (conj Hp1 (conj Hc5 Hp5))).
Defined.

(** C2: after [gpio_af_set], for every port, every alternate-function
    number (GPIO_AF_0 .. GPIO_AF_15, that is 0..15) and every pin selector,
    the 4-bit field at position [4 * i] of GPIO_AFSEL0 for a pin [i] in
    [0,8), and the 4-bit field at position [4 * (i - 8)] of GPIO_AFSEL1 for
    a pin [i] in [8,16), holds the alternate-function number when the pin is
    selected and holds what it held before when the pin is not selected. *)
Theorem gpio_af_set_fields (st : mcu) (gpio_periph alt_func_num pin i : Z) :
  0 <= alt_func_num < 16 ->
  let st' := exec (gpio_af_set gpio_periph alt_func_num pin) st in
  (0 <= i < 8 ->
   field4 (regs st' (GPIO_AFSEL0 gpio_periph)) i
   = if Z.testbit pin i then alt_func_num
     else field4 (regs st (GPIO_AFSEL0 gpio_periph)) i)
  /\
  (8 <= i < 16 ->
   field4 (regs st' (GPIO_AFSEL1 gpio_periph)) (i - 8)
   = if Z.testbit pin i then alt_func_num
     else field4 (regs st (GPIO_AFSEL1 gpio_periph)) (i - 8)).
Proof.
  intros Ha st'. subst st'.
  rewrite gpio_afsel0_after_af_set, gpio_afsel1_after_af_set.
  rewrite !field4_field. split; intros Hi.
  - rewrite (pack_loop_field 4 0) by (simpl Z.of_nat; lia).
    simpl Z.of_nat. rewrite Z.add_0_r, !Z.sub_0_r.
    destruct (Z.leb_spec 0 i); [ | lia].
    destruct (Z.ltb_spec i (0 + 8)); [ | lia].
    reflexivity.
  - rewrite (pack_loop_field 4 8) by (simpl Z.of_nat; lia).
    simpl Z.of_nat. replace (i - 8 + 8) with i by lia.
    destruct (Z.leb_spec (8 - 8) (i - 8)); [ | lia].
    destruct (Z.ltb_spec (i - 8) (8 - 8 + 8)); [ | lia].
    reflexivity.
Qed.

Lemma gpio_af_set_fields_witness :
  0 <= 7 < 16 /\ 0 <= 3 < 8 /\ 8 <= 9 < 16 /\ 8 <= 12 < 16 /\
  let st' := exec (gpio_af_set 7 7 0x0208) (mcu_all 0xA5A5A5A5) in
  field4 (regs st' (GPIO_AFSEL0 7)) 3 = 7 /\
  field4 (regs st' (GPIO_AFSEL1 7)) (9 - 8) = 7 /\
  field4 (regs st' (GPIO_AFSEL1 7)) (12 - 8) = field4 0xA5A5A5A5 (12 - 8).
Proof.
  assert (Ha : 0 <= 7 < 16) by lia.
  assert (H3 : 0 <= 3 < 8) by lia.
  assert (H9 : 8 <= 9 < 16) by lia.
  assert (H12 : 8 <= 12 < 16) by lia.
  repeat (split; [assumption | ]).
  intros st'.
  destruct (gpio_af_set_fields (mcu_all 0xA5A5A5A5) 7 7 0x0208 3 Ha)
    as [Hlo _].
  destruct (gpio_af_set_fields (mcu_all 0xA5A5A5A5) 7 7 0x0208 9 Ha)
    as [_ Hhi].
  destruct (gpio_af_set_fields (mcu_all 0xA5A5A5A5) 7 7 0x0208 12 Ha)
    as [_ Hkeep].
  exact (conj (Hlo H3) (conj (Hhi H9) (Hkeep H12))).
Defined.

(** C7: [gpio_mode_set] is idempotent.  For every port, mode, pull-up/down
    value, pin selector and initial state, a second call with the same
    arguments leaves GPIO_CTL and GPIO_PUD (and every other register) with
    exactly the values the first call produced. *)
Theorem gpio_mode_set_idempotent (st : mcu)
    (gpio_periph mode pull_up_down pin : Z) :
  let once := exec (gpio_mode_set gpio_periph mode pull_up_down pin) st in
  let twice := exec (gpio_mode_set gpio_periph mode pull_up_down pin) once in
  regs twice (GPIO_CTL gpio_periph) = regs once (GPIO_CTL gpio_periph) /\
  regs twice (GPIO_PUD gpio_periph) = regs once (GPIO_PUD gpio_periph) /\
  forall r, regs twice r = regs once r.
Proof.
  intros once twice.
  assert (Hc : for_loop 16 0 (pack_body 2 0 mode pin)
                        (regs once (GPIO_CTL gpio_periph))
               = regs once (GPIO_CTL gpio_periph)).
  { unfold once. rewrite gpio_ctl_after_mode_set.
    apply pack_loop_idempotent. }
  assert (Hp : for_loop 16 0 (pack_body 2 0 pull_up_down pin)
                        (regs once (GPIO_PUD gpio_periph))
               = regs once (GPIO_PUD gpio_periph)).
  { unfold once. rewrite gpio_pud_after_mode_set.
    apply pack_loop_idempotent. }
  assert (Hall : forall r, regs twice r = regs once r).
  { intros r. unfold twice. rewrite gpio_mode_set_regs, Hc, Hp.
    unfold upd at 1.
    destruct (reg_eqb (GPIO_PUD gpio_periph) r) eqn:E.
    - apply reg_eqb_eq in E. subst r. reflexivity.
    - apply upd_id. }
  repeat split; try apply Hall.
Qed.

(** C8: with a zero pin selector [gpio_mode_set] changes no register value:
    for every port, mode and pull-up/down value, GPIO_CTL and GPIO_PUD (and
    every other register) hold after the call what they held before it. *)
Theorem gpio_mode_set_zero_selector (st : mcu)
    (gpio_periph mode pull_up_down : Z) :
  let st' := exec (gpio_mode_set gpio_periph mode pull_up_down 0) st in
  regs st' (GPIO_CTL gpio_periph) = regs st (GPIO_CTL gpio_periph) /\
  regs st' (GPIO_PUD gpio_periph) = regs st (GPIO_PUD gpio_periph) /\
  forall r, regs st' r = regs st r.
Proof.
  intros st'.
  assert (Hall : forall r, regs st' r = regs st r).
  { intros r. subst st'. rewrite gpio_mode_set_regs, !pack_loop_zero.
    unfold upd at 1.
    destruct (reg_eqb (GPIO_PUD gpio_periph) r) eqn:E.
    - apply reg_eqb_eq in E. subst r. reflexivity.
    - apply upd_id. }
  repeat split; try apply Hall.
Qed.

(** ** GPIO: lock sequence, bit writes, port reset *)

(** C5: for every port and pin selector, [gpio_pin_lock] performs on
    GPIO_LOCK exactly five accesses, in this order: write
    [0x00010000 | pin], write [pin], write [0x00010000 | pin], read, read;
    it touches no other register. *)
Theorem gpio_pin_lock_sequence (st : mcu) (gpio_periph pin : Z) :
  trace (exec (gpio_pin_lock gpio_periph pin) st)
  = trace st ++ [ Wr (GPIO_LOCK gpio_periph) (Z.lor 0x00010000 pin);
                  Wr (GPIO_LOCK gpio_periph) pin;
                  Wr (GPIO_LOCK gpio_periph) (Z.lor 0x00010000 pin);
                  Rd (GPIO_LOCK gpio_periph);
                  Rd (GPIO_LOCK gpio_periph) ].
Proof.
  unfold exec, gpio_pin_lock, bind, load, store, ret.
  cbn beta iota zeta delta [snd fst regs trace].
  rewrite <- !app_assoc. reflexivity.
Qed.

Example gpio_pin_lock_pin5 :
  trace (exec (gpio_pin_lock 7 0x0020) (mcu_all 0))
  = [ Wr (GPIO_LOCK 7) 0x00010020; Wr (GPIO_LOCK 7) 0x0020;
      Wr (GPIO_LOCK 7) 0x00010020; Rd (GPIO_LOCK 7); Rd (GPIO_LOCK 7) ].
Proof. reflexivity. Qed.

(** C10: for every port, pin selector and [bit_value], [gpio_bit_write]
    does what [gpio_bit_reset] does (the pin mask goes to GPIO_BC) when
    [bit_value] is RESET, and what [gpio_bit_set] does (the pin mask goes to
    GPIO_BOP) for any other [bit_value], SET or not. *)
Theorem gpio_bit_write_dispatch (st : mcu) (gpio_periph pin bit_value : Z) :
  gpio_bit_write gpio_periph pin bit_value st
  = if bit_value =? RESET
    then gpio_bit_reset gpio_periph pin st
    else gpio_bit_set gpio_periph pin st.
Proof.
  unfold gpio_bit_write, gpio_bit_reset, gpio_bit_set.
  rewrite (Z.eqb_sym RESET bit_value).
  destruct (bit_value =? RESET); reflexivity.
Qed.

Example gpio_bit_write_value_2 :
  trace (exec (gpio_bit_write 7 0x0001 2) (mcu_all 0))
  = [ Wr (GPIO_BOP 7) 0x0001 ].
Proof. reflexivity. Qed.

Section GpioDeinitFacts.

Variables GPIOA GPIOB GPIOC : Z.
Variables RCU_GPIOARST RCU_GPIOBRST RCU_GPIOCRST : Z.
Variables rcu_periph_reset_enable rcu_periph_reset_disable : Z -> M unit.

(** C6: for every port identifier other than GPIOA, GPIOB and GPIOC,
    [gpio_deinit] takes the default arm: it returns without a value,
    calls neither reset primitive, performs no register access and leaves
    the whole state as it was. *)
Theorem gpio_deinit_unrecognized (st : mcu) (gpio_periph : Z) :
  gpio_periph <> GPIOA -> gpio_periph <> GPIOB -> gpio_periph <> GPIOC ->
  gpio_deinit GPIOA GPIOB GPIOC RCU_GPIOARST RCU_GPIOBRST RCU_GPIOCRST
              rcu_periph_reset_enable rcu_periph_reset_disable
              gpio_periph st
  = (tt, st).
Proof.
  intros Ha Hb Hc. unfold gpio_deinit.
  apply Z.eqb_neq in Ha, Hb, Hc. rewrite Ha, Hb, Hc. reflexivity.
Qed.

End GpioDeinitFacts.

(** A recognized port does reach the reset primitives. *)
Example gpio_deinit_gpiob :
  trace (exec (gpio_deinit 0x40020000 0x40020400 0x40020800 0 1 2
                 rcu_reset_on rcu_reset_off 0x40020400) (mcu_all 0))
  = [ Rd (RCU 0x10); Wr (RCU 0x10) 2; Rd (RCU 0x10); Wr (RCU 0x10) 0 ].
Proof. vm_compute. reflexivity. Qed.

Lemma gpio_deinit_unrecognized_witness :
  0x40020C00 <> 0x40020000 /\ 0x40020C00 <> 0x40020400 /\
  0x40020C00 <> 0x40020800 /\
  gpio_deinit 0x40020000 0x40020400 0x40020800 0 1 2
              rcu_reset_on rcu_reset_off 0x40020C00 (mcu_all 5)
  = (tt, mcu_all 5).
Proof.
  assert (Ha : 0x40020C00 <> 0x40020000) by discriminate.
  assert (Hb : 0x40020C00 <> 0x40020400) by discriminate.
  assert (Hc : 0x40020C00 <> 0x40020800) by discriminate.
  exact (conj Ha (conj Hb (conj Hc
    (gpio_deinit_unrecognized 0x40020000 0x40020400 0x40020800 0 1 2
       rcu_reset_on rcu_reset_off (mcu_all 5) 0x40020C00 Ha Hb Hc)))).
Defined.

(** ** EXTI: pending flags and enable bits *)

(** C3: for every line and every initial state, [exti_flag_get] called
    right after [exti_flag_clear] on the same line returns RESET (the
    pending register being clear-by-write-1). *)
Theorem exti_flag_clear_then_get (st : mcu) (linex : Z) :
  eval (exti_flag_get linex) (exec (exti_flag_clear linex) st) = RESET.
Proof.
  unfold eval, exec, exti_flag_get, exti_flag_clear, bind, load, store.
  cbn beta iota zeta delta [snd fst regs trace].
  rewrite upd_same. unfold latch, EXTI_PD.
  rewrite <- Z.land_assoc, (Z.land_comm (Z.lnot linex) linex).
  rewrite Z.land_lnot_diag, Z.land_0_r. reflexivity.
Qed.

Example exti_flag_clear_then_get_line3 :
  let st := mcu_all 0xFFFFFFFF in
  eval (exti_flag_get 0x8) st = SET /\
  eval (exti_flag_get 0x8) (exec (exti_flag_clear 0x8) st) = RESET /\
  eval (exti_flag_get 0x4) (exec (exti_flag_clear 0x8) st) = SET.
Proof. vm_compute. repeat split. Qed.

(** C9: [exti_interrupt_flag_get] is [exti_flag_get] under another name and
    [exti_interrupt_flag_clear] is [exti_flag_clear] under another name: for
    every line and state each pair returns the same value and leaves the
    same state. *)
Theorem exti_interrupt_flag_aliases (st : mcu) (linex : Z) :
  exti_interrupt_flag_get linex st = exti_flag_get linex st /\
  exti_interrupt_flag_clear linex st = exti_flag_clear linex st.
Proof.
  split.
  - unfold exti_interrupt_flag_get, exti_flag_get. reflexivity.
  - unfold exti_interrupt_flag_clear, exti_flag_clear. reflexivity.
Qed.

(** Setting and then clearing the bits [l] of a plain-storage register
    leaves them clear and keeps every other bit of the 32-bit value. *)
Lemma or_then_and_not_bit (r : reg) (l : Z) (st : mcu) (b : Z) :
  r <> EXTI_PD -> 0 <= b < 32 ->
  Z.testbit (regs (exec (and_assign r (not32 l)) (exec (or_assign r l) st)) r)
            b
  = Z.testbit (regs st r) b && negb (Z.testbit l b).
Proof.
  intros Hr Hb.
  unfold exec, and_assign, or_assign, bind, load, store.
  cbn beta iota zeta delta [snd fst regs trace].
  rewrite !upd_same.
  assert (Hlatch : forall old v, latch r old v = v).
  { intros old v. destruct r as [p g | e | a]; try reflexivity.
    destruct e; try reflexivity. exfalso. apply Hr. reflexivity. }
  rewrite !Hlatch.
  rewrite Z.land_spec, Z.lor_spec, not32_bit by lia.
  destruct (Z.ltb_spec b 32); [ | lia].
  simpl. btauto.
Qed.

Lemma toggle_pairs_shape (gpio_periph : Z) (r : reg)
    (en dis : Z -> M unit) :
  In (r, en, dis) (toggle_pairs gpio_periph) ->
  r <> EXTI_PD /\
  forall l st,
    exec (dis l) (exec (en l) st)
    = exec (and_assign r (not32 l)) (exec (or_assign r l) st).
Proof.
  unfold toggle_pairs. simpl In.
  intros [H | [H | [H | [H | [H | [H | []]]]]]];
    injection H as <- <- <-; (split; [discriminate | reflexivity]).
Qed.

(** C4 fails as stated, on the state [exti_deinit] leaves behind:
    EXTI_INTEN then holds [0x0F940000], line 18 is enabled, and enabling and
    disabling line 18 leaves it disabled. *)
Lemma exti_enable_disable_loses_set_bit :
  let st := exec exti_deinit (mcu_all 0) in
  let st' := exec (exti_interrupt_disable 0x00040000)
                  (exec (exti_interrupt_enable 0x00040000) st) in
  Z.testbit (regs st EXTI_INTEN) 18 = true /\
  Z.testbit (regs st' EXTI_INTEN) 18 = false /\
  Z.testbit (regs st' EXTI_INTEN) 18 <> Z.testbit (regs st EXTI_INTEN) 18.
Proof.
  vm_compute. repeat split; discriminate.
Qed.

(** C4 (amended): for every single-bit enable/disable pair of the drivers
    (EXTI interrupt, event, software interrupt, security and privilege
    bits, and the GPIO secure-configuration bits), every line selector and
    every initial state in which the selected bits are clear, enable followed
    by disable restores every bit of the 32-bit register, the line's own bit
    included, to its state before the enable. *)
Theorem enable_then_disable_restores (gpio_periph linex : Z) (st : mcu)
    (r : reg) (en dis : Z -> M unit) (b : Z) :
  In (r, en, dis) (toggle_pairs gpio_periph) ->
  Z.land (regs st r) linex = 0 ->
  0 <= b < 32 ->
  Z.testbit (regs (exec (dis linex) (exec (en linex) st)) r) b
  = Z.testbit (regs st r) b.
Proof.
  intros Hin Hclear Hb.
  destruct (toggle_pairs_shape gpio_periph r en dis Hin) as [Hr Hshape].
  rewrite Hshape, or_then_and_not_bit by assumption.
  assert (Hbit : Z.testbit (Z.land (regs st r) linex) b = false)
    by (rewrite Hclear; apply Z.bits_0).
  rewrite Z.land_spec in Hbit.
  destruct (Z.testbit (regs st r) b), (Z.testbit linex b);
    try reflexivity; discriminate.
Qed.

Lemma enable_then_disable_restores_witness :
  In (EXTI_INTEN, exti_interrupt_enable, exti_interrupt_disable)
     (toggle_pairs 7) /\
  Z.land (regs (mcu_all 0xF0) EXTI_INTEN) 0x8 = 0 /\
  0 <= 3 < 32 /\
  Z.testbit (regs (exec (exti_interrupt_disable 0x8)
                        (exec (exti_interrupt_enable 0x8) (mcu_all 0xF0)))
                  EXTI_INTEN) 3
  = Z.testbit (regs (mcu_all 0xF0) EXTI_INTEN) 3.
Proof.
  assert (Hin : In (EXTI_INTEN, exti_interrupt_enable, exti_interrupt_disable)
                   (toggle_pairs 7)) by (left; reflexivity).
  assert (Hclear : Z.land (regs (mcu_all 0xF0) EXTI_INTEN) 0x8 = 0)
    by reflexivity.
  assert (Hb : 0 <= 3 < 32) by lia.
  exact (conj Hin (conj Hclear (conj Hb
    (enable_then_disable_restores 7 0x8 (mcu_all 0xF0) EXTI_INTEN
       exti_interrupt_enable exti_interrupt_disable 3 Hin Hclear Hb)))).
Defined.

(** ** Packing loops, without assumptions on the value packed *)

(** The field just written holds the low [w] bits of the value. *)
Lemma field_clear_set_low_bits (w i v x : Z) :
  0 < w -> 0 <= i -> w * i + w <= 32 ->
  field w (clear_set w i v x) i = Z.land v (Z.ones w).
Proof.
  intros Hw Hi Hfit. apply Z.bits_inj'. intros n Hn.
  rewrite field_bit, Z.land_spec, Z.testbit_ones_nonneg by lia.
  destruct (Z.ltb_spec n w) as [Hlt | Hge]; simpl.
  - rewrite clear_set_bit by lia.
    replace (n + w * i - w * i) with n by lia.
    destruct (Z.ltb_spec (n + w * i) 32); [ | lia].
    destruct (Z.leb_spec (w * i) (n + w * i)); [ | lia].
    destruct (Z.ltb_spec (n + w * i) (w * i + w)); [ | lia].
    simpl. rewrite andb_false_r, andb_true_r. reflexivity.
  - rewrite andb_false_r. reflexivity.
Qed.

(** A step never changes the field of a lower pin: whatever is too wide for
    its field spills upwards only. *)
Lemma field_clear_set_above (w i j v x : Z) :
  0 < w -> 0 <= j < i -> w * j + w <= 32 ->
  field w (clear_set w i v x) j = field w x j.
Proof.
  intros Hw Hj Hfit. apply Z.bits_inj'. intros n Hn.
  rewrite !field_bit by lia.
  destruct (Z.ltb_spec n w) as [Hlt | Hge]; simpl; [ | reflexivity].
  rewrite clear_set_bit by lia.
  destruct (Z.ltb_spec (n + w * j) 32); [ | nia].
  destruct (Z.leb_spec (w * i) (n + w * j)); [nia | ].
  rewrite (Z.testbit_neg_r v) by nia.
  simpl. rewrite andb_true_r, orb_false_r. reflexivity.
Qed.

Lemma pack_loop_keeps_low (w off v pin : Z) :
  0 < w -> 0 <= off ->
  forall (n : nat) (lo x j : Z),
    off <= lo -> lo + Z.of_nat n <= 32 ->
    0 <= j -> w * j + w <= 32 ->
    (forall k, lo <= k <= j + off -> Z.testbit pin k = false) ->
    field w (for_loop n lo (pack_body w off v pin) x) j = field w x j.
Proof.
  intros Hw Hoff n.
  induction n as [ | n IH]; intros lo x j Hlo Hhi Hj Hfit Hnone.
  - reflexivity.
  - simpl for_loop. rewrite IH; try lia.
    + unfold pack_body. rewrite pin_selected_spec by lia.
      destruct (Z_le_gt_dec lo (j + off)) as [Hle | Hgt].
      * rewrite Hnone by lia. reflexivity.
      * destruct (Z.testbit pin lo); [ | reflexivity].
        apply field_clear_set_above; lia.
    + intros k Hk. apply Hnone. lia.
Qed.

Lemma pack_loop_selected_low_bits (w off v pin : Z) :
  0 < w -> 0 <= off ->
  forall (n : nat) (lo x j : Z),
    off <= lo -> lo + Z.of_nat n <= 32 ->
    w * (lo - off + Z.of_nat n) <= 32 ->
    lo - off <= j < lo - off + Z.of_nat n ->
    Z.testbit pin (j + off) = true ->
    field w (for_loop n lo (pack_body w off v pin) x) j
    = Z.land v (Z.ones w).
Proof.
  intros Hw Hoff n.
  induction n as [ | n IH]; intros lo x j Hlo Hhi Hfit Hj Hsel.
  - simpl Z.of_nat in Hj. lia.
  - simpl for_loop.
    destruct (Z.eq_dec j (lo - off)) as [-> | Hne].
    + rewrite pack_loop_keeps_low; [ | first [lia | nia] ..].
      unfold pack_body. rewrite pin_selected_spec by lia.
      replace (lo - off + off) with lo in Hsel by lia. rewrite Hsel.
      apply field_clear_set_low_bits; first [lia | nia].
    + apply IH; first [lia | nia | exact Hsel].
Qed.

Lemma for_loop_ext {L : Type} (n : nat) :
  forall (lo : Z) (f g : Z -> L -> L) (s : L),
    (forall i x, lo <= i < lo + Z.of_nat n -> f i x = g i x) ->
    for_loop n lo f s = for_loop n lo g s.
Proof.
  induction n as [ | n IH]; intros lo f g s Hfg.
  - reflexivity.
  - simpl for_loop. rewrite (Hfg lo s) by lia.
    apply IH. intros i x Hi. apply Hfg. lia.
Qed.

Lemma pin_selected_low16 (i pin : Z) :
  0 <= i < 16 -> pin_selected i (Z.land pin 0xFFFF) = pin_selected i pin.
Proof.
  intros Hi. rewrite !pin_selected_spec by lia. rewrite Z.land_spec.
  change 0xFFFF with (Z.ones 16). rewrite Z.ones_spec_low by lia.
  apply andb_true_r.
Qed.

(** The 2-bit and 4-bit loops of the drivers, for values that fit. *)
Lemma pack_loop16_field (v pin x i : Z) :
  0 <= v < 4 -> 0 <= i < 16 ->
  field 2 (for_loop 16 0 (pack_body 2 0 v pin) x) i
  = if Z.testbit pin i then v else field 2 x i.
Proof.
  intros Hv Hi.
  rewrite (pack_loop_field 2 0) by (simpl Z.of_nat; lia).
  simpl Z.of_nat. rewrite Z.add_0_r, !Z.sub_0_r.
  destruct (Z.leb_spec 0 i); [ | lia].
  destruct (Z.ltb_spec i (0 + 16)); [ | lia].
  reflexivity.
Qed.

Lemma upd_other (f : reg -> Z) (r s : reg) (v : Z) :
  reg_eqb r s = false -> upd f r v s = f s.
Proof. intros H. unfold upd. rewrite H. reflexivity. Qed.

Lemma reg_eqb_neq (r s : reg) : r <> s -> reg_eqb r s = false.
Proof.
  intros H. destruct (reg_eqb r s) eqn:E; [ | reflexivity].
  exfalso. apply H. apply reg_eqb_eq. exact E.
Qed.

Lemma reg_eqb_other_port (p q : Z) (g h : gpio_reg) :
  q <> p -> reg_eqb (GPIO p g) (GPIO q h) = false.
Proof.
  intros H. simpl. apply Z.eqb_neq in H. rewrite Z.eqb_sym, H. reflexivity.
Qed.

(** ** GPIO: further properties of the packing routines *)

(** X1: whatever the mode and pull-up/down values, even wider than two
    bits, [gpio_mode_set] leaves in the field of every selected pin the low
    two bits of the value, and leaves unchanged the field of every pin that
    has no selected pin at or below it: a value too wide for its field only
    spills into the fields of higher pins. *)
Theorem gpio_mode_set_low_bits (st : mcu)
    (gpio_periph mode pull_up_down pin i : Z) :
  0 <= i < 16 ->
  let st' := exec (gpio_mode_set gpio_periph mode pull_up_down pin) st in
  (Z.testbit pin i = true ->
   field2 (regs st' (GPIO_CTL gpio_periph)) i = Z.land mode 0x3 /\
   field2 (regs st' (GPIO_PUD gpio_periph)) i = Z.land pull_up_down 0x3)
  /\
  ((forall k, 0 <= k <= i -> Z.testbit pin k = false) ->
   field2 (regs st' (GPIO_CTL gpio_periph)) i
   = field2 (regs st (GPIO_CTL gpio_periph)) i /\
   field2 (regs st' (GPIO_PUD gpio_periph)) i
   = field2 (regs st (GPIO_PUD gpio_periph)) i).
Proof.
  intros Hi st'. subst st'.
  rewrite gpio_ctl_after_mode_set, gpio_pud_after_mode_set.
  rewrite !field2_field. split.
  - intros Hsel.
    rewrite !(pack_loop_selected_low_bits 2 0)
      by (simpl Z.of_nat; first [lia | rewrite Z.add_0_r; exact Hsel]).
    split; reflexivity.
  - intros Hnone.
    rewrite !(pack_loop_keeps_low 2 0)
      by (simpl Z.of_nat;
          first [lia | intros k Hk; apply Hnone; lia]).
    split; reflexivity.
Qed.

Lemma gpio_mode_set_low_bits_witness :
  0 <= 2 < 16 /\ 0 <= 1 < 16 /\
  let st' := exec (gpio_mode_set 7 7 6 0x0004) (mcu_all 0xFFFFFFFF) in
  field2 (regs st' (GPIO_CTL 7)) 2 = Z.land 7 0x3 /\
  field2 (regs st' (GPIO_PUD 7)) 2 = Z.land 6 0x3 /\
  field2 (regs st' (GPIO_CTL 7)) 1 = field2 0xFFFFFFFF 1 /\
  field2 (regs st' (GPIO_PUD 7)) 1 = field2 0xFFFFFFFF 1.
Proof.
  assert (H2 : 0 <= 2 < 16) by lia.
  assert (H1 : 0 <= 1 < 16) by lia.
  assert (Hsel : Z.testbit 0x0004 2 = true) by reflexivity.
  assert (Hnone : forall k, 0 <= k <= 1 -> Z.testbit 0x0004 k = false).
  { intros k Hk. assert (Hc : k = 0 \/ k = 1) by lia.
    destruct Hc as [-> | ->]; reflexivity. }
  split; [exact H2 | split; [exact H1 | ]]. intros st'.
  destruct (gpio_mode_set_low_bits (mcu_all 0xFFFFFFFF) 7 7 6 0x0004 2 H2)
    as [Hset _].
  destruct (gpio_mode_set_low_bits (mcu_all 0xFFFFFFFF) 7 7 6 0x0004 1 H1)
    as [_ Hkeep].
  destruct (Hset Hsel) as [Hc Hp]. destruct (Hkeep Hnone) as [Hc' Hp'].
  exact (conj Hc (conj Hp (conj Hc' Hp'))).
Defined.

(** X2: whatever the alternate-function number, even wider than four bits,
    [gpio_af_set] leaves in the field of every selected pin (in GPIO_AFSEL0
    for pins 0..7, in GPIO_AFSEL1 for pins 8..15) the low four bits of the
    number. *)
Theorem gpio_af_set_low_bits (st : mcu)
    (gpio_periph alt_func_num pin i : Z) :
  Z.testbit pin i = true ->
  let st' := exec (gpio_af_set gpio_periph alt_func_num pin) st in
  (0 <= i < 8 ->
   field4 (regs st' (GPIO_AFSEL0 gpio_periph)) i = Z.land alt_func_num 0xF)
  /\
  (8 <= i < 16 ->
   field4 (regs st' (GPIO_AFSEL1 gpio_periph)) (i - 8)
   = Z.land alt_func_num 0xF).
Proof.
  intros Hsel st'. subst st'.
  rewrite gpio_afsel0_after_af_set, gpio_afsel1_after_af_set.
  rewrite !field4_field. split; intros Hi.
  - rewrite (pack_loop_selected_low_bits 4 0)
      by (simpl Z.of_nat; first [lia | rewrite Z.add_0_r; exact Hsel]).
    reflexivity.
  - rewrite (pack_loop_selected_low_bits 4 8)
      by (simpl Z.of_nat;
          first [lia | replace (i - 8 + 8) with i by lia; exact Hsel]).
    reflexivity.
Qed.

Lemma gpio_af_set_low_bits_witness :
  Z.testbit 0x0202 1 = true /\ Z.testbit 0x0202 9 = true /\
  0 <= 1 < 8 /\ 8 <= 9 < 16 /\
  let st' := exec (gpio_af_set 7 0x1F 0x0202) (mcu_all 0) in
  field4 (regs st' (GPIO_AFSEL0 7)) 1 = Z.land 0x1F 0xF /\
  field4 (regs st' (GPIO_AFSEL1 7)) (9 - 8) = Z.land 0x1F 0xF.
Proof.
  assert (Hs1 : Z.testbit 0x0202 1 = true) by reflexivity.
  assert (Hs9 : Z.testbit 0x0202 9 = true) by reflexivity.
  assert (H1 : 0 <= 1 < 8) by lia.
  assert (H9 : 8 <= 9 < 16) by lia.
  split; [exact Hs1 | split; [exact Hs9 | split; [exact H1 | ]]].
  split; [exact H9 | ]. intros st'.
  destruct (gpio_af_set_low_bits (mcu_all 0) 7 0x1F 0x0202 1 Hs1)
    as [Hlo _].
  destruct (gpio_af_set_low_bits (mcu_all 0) 7 0x1F 0x0202 9 Hs9)
    as [_ Hhi].
  exact (conj (Hlo H1) (Hhi H9)).
Defined.

(** X3: [gpio_mode_set] and [gpio_af_set] look at the low 16 bits of the
    pin selector only: a selector and its low half-word give the same
    accesses and the same state. *)
Theorem gpio_selector_high_bits_ignored (st : mcu)
    (gpio_periph mode pull_up_down alt_func_num pin : Z) :
  gpio_mode_set gpio_periph mode pull_up_down (Z.land pin 0xFFFF) st
  = gpio_mode_set gpio_periph mode pull_up_down pin st
  /\
  gpio_af_set gpio_periph alt_func_num (Z.land pin 0xFFFF) st
  = gpio_af_set gpio_periph alt_func_num pin st.
Proof.
  split.
  - unfold gpio_mode_set, bind, load, store.
    cbn beta iota zeta delta [snd fst regs trace].
    rewrite (for_loop_ext 16 0
               (gpio_mode_set_body mode pull_up_down (Z.land pin 0xFFFF))
               (gpio_mode_set_body mode pull_up_down pin)).
    + reflexivity.
    + intros i [c u] Hi. unfold gpio_mode_set_body.
      rewrite pin_selected_low16 by (simpl Z.of_nat in Hi; lia).
      reflexivity.
  - unfold gpio_af_set, bind, load, store.
    cbn beta iota zeta delta [snd fst regs trace].
    rewrite (for_loop_ext 8 0
               (gpio_af_set_body_low alt_func_num (Z.land pin 0xFFFF))
               (gpio_af_set_body_low alt_func_num pin)).
    + rewrite (for_loop_ext 8 8
                 (gpio_af_set_body_high alt_func_num (Z.land pin 0xFFFF))
                 (gpio_af_set_body_high alt_func_num pin)).
      * reflexivity.
      * intros i x Hi. unfold gpio_af_set_body_high.
        rewrite pin_selected_low16 by (simpl Z.of_nat in Hi; lia).
        reflexivity.
    + intros i x Hi. unfold gpio_af_set_body_low.
      rewrite pin_selected_low16 by (simpl Z.of_nat in Hi; lia).
      reflexivity.
Qed.

(** X4: [gpio_af_set] is idempotent, and with a zero pin selector it
    changes no register value; both hold for every alternate-function
    number, port and state. *)
Theorem gpio_af_set_idempotent_and_zero (st : mcu)
    (gpio_periph alt_func_num pin : Z) :
  (forall r,
     regs (exec (gpio_af_set gpio_periph alt_func_num pin)
                (exec (gpio_af_set gpio_periph alt_func_num pin) st)) r
     = regs (exec (gpio_af_set gpio_periph alt_func_num pin) st) r)
  /\
  (forall r,
     regs (exec (gpio_af_set gpio_periph alt_func_num 0) st) r = regs st r).
Proof.
  split; intros r.
  - set (once := exec (gpio_af_set gpio_periph alt_func_num pin) st).
    assert (H0 : for_loop 8 0 (pack_body 4 0 alt_func_num pin)
                          (regs once (GPIO_AFSEL0 gpio_periph))
                 = regs once (GPIO_AFSEL0 gpio_periph)).
    { unfold once. rewrite gpio_afsel0_after_af_set.
      apply pack_loop_idempotent. }
    assert (H1 : for_loop 8 8 (pack_body 4 8 alt_func_num pin)
                          (regs once (GPIO_AFSEL1 gpio_periph))
                 = regs once (GPIO_AFSEL1 gpio_periph)).
    { unfold once. rewrite gpio_afsel1_after_af_set.
      apply pack_loop_idempotent. }
    rewrite gpio_af_set_regs, H0, H1. unfold upd at 1.
    destruct (reg_eqb (GPIO_AFSEL1 gpio_periph) r) eqn:E.
    + apply reg_eqb_eq in E. subst r. reflexivity.
    + apply upd_id.
  - rewrite gpio_af_set_regs, !pack_loop_zero. unfold upd at 1.
    destruct (reg_eqb (GPIO_AFSEL1 gpio_periph) r) eqn:E.
    + apply reg_eqb_eq in E. subst r. reflexivity.
    + apply upd_id.
Qed.

(** X5: two calls of [gpio_mode_set] on the same port compose pin by pin:
    for values 0..3, afterwards the field of a pin selected by the second
    call holds the second value, the field of a pin selected by the first
    call only holds the first value, and the field of a pin selected by
    neither is unchanged. *)
Theorem gpio_mode_set_twice (st : mcu)
    (gpio_periph mode1 pupd1 pin1 mode2 pupd2 pin2 i : Z) :
  0 <= mode1 < 4 -> 0 <= pupd1 < 4 -> 0 <= mode2 < 4 -> 0 <= pupd2 < 4 ->
  0 <= i < 16 ->
  let st' := exec (gpio_mode_set gpio_periph mode2 pupd2 pin2)
                  (exec (gpio_mode_set gpio_periph mode1 pupd1 pin1) st) in
  field2 (regs st' (GPIO_CTL gpio_periph)) i
  = (if Z.testbit pin2 i then mode2
     else if Z.testbit pin1 i then mode1
     else field2 (regs st (GPIO_CTL gpio_periph)) i)
  /\
  field2 (regs st' (GPIO_PUD gpio_periph)) i
  = (if Z.testbit pin2 i then pupd2
     else if Z.testbit pin1 i then pupd1
     else field2 (regs st (GPIO_PUD gpio_periph)) i).
Proof.
  intros Hm1 Hu1 Hm2 Hu2 Hi st'. subst st'.
  rewrite !gpio_ctl_after_mode_set, !gpio_pud_after_mode_set.
  rewrite !field2_field, !pack_loop16_field by assumption.
  split; reflexivity.
Qed.

Lemma gpio_mode_set_twice_witness :
  0 <= 1 < 4 /\ 0 <= 0 < 4 /\ 0 <= 2 < 4 /\ 0 <= 1 < 4 /\ 0 <= 1 < 16 /\
  let st' := exec (gpio_mode_set 7 2 1 0x0006)
                  (exec (gpio_mode_set 7 1 0 0x0003) (mcu_all 0)) in
  field2 (regs st' (GPIO_CTL 7)) 1 = 2 /\
  field2 (regs st' (GPIO_PUD 7)) 1 = 1.
Proof.
  assert (Hm1 : 0 <= 1 < 4) by lia.
  assert (Hu1 : 0 <= 0 < 4) by lia.
  assert (Hm2 : 0 <= 2 < 4) by lia.
  assert (Hi : 0 <= 1 < 16) by lia.
  split; [exact Hm1 | split; [exact Hu1 | split; [exact Hm2 | ]]].
  split; [exact Hm1 | split; [exact Hi | ]]. intros st'.
  exact (gpio_mode_set_twice (mcu_all 0) 7 1 0 0x0003 2 1 0x0006 1
           Hm1 Hu1 Hm2 Hm1 Hi).
Defined.

(** ** Register file after sequenced accesses *)

Lemma exec_bind {A B : Type} (m : M A) (k : A -> M B) (st : mcu) :
  exec (bind m k) st = exec (k (eval m st)) (exec m st).
Proof. unfold exec, eval, bind. destruct (m st). reflexivity. Qed.

Lemma regs_or_assign (r : reg) (v : Z) (st : mcu) (s : reg) :
  regs (exec (or_assign r v) st) s
  = upd (regs st) r (latch r (regs st r) (Z.lor (regs st r) v)) s.
Proof. reflexivity. Qed.

Lemma regs_and_assign (r : reg) (v : Z) (st : mcu) (s : reg) :
  regs (exec (and_assign r v) st) s
  = upd (regs st) r (latch r (regs st r) (Z.land (regs st r) v)) s.
Proof. reflexivity. Qed.

Lemma exec_ret {A : Type} (a : A) (st : mcu) : exec (ret a) st = st.
Proof. reflexivity. Qed.

Lemma land_zero_iff (a b : Z) :
  Z.land a b = 0
  <-> forall n, 0 <= n -> Z.testbit a n = true -> Z.testbit b n = false.
Proof.
  split.
  - intros H n Hn Ha.
    assert (Hbit : Z.testbit (Z.land a b) n = false)
      by (rewrite H; apply Z.bits_0).
    rewrite Z.land_spec, Ha in Hbit. exact Hbit.
  - intros H. apply Z.bits_inj'. intros n Hn.
    rewrite Z.land_spec, Z.bits_0.
    destruct (Z.testbit a n) eqn:Ha; [ | reflexivity].
    rewrite (H n Hn Ha). reflexivity.
Qed.

Lemma land_single_bit (x b : Z) :
  0 <= b -> (Z.land x (Z.shiftl 1 b) =? 0) = negb (Z.testbit x b).
Proof.
  intros Hb.
  assert (Hbit : forall n, 0 <= n ->
            Z.testbit (Z.land x (Z.shiftl 1 b)) n
            = (n =? b) && Z.testbit x n).
  { intros n Hn. rewrite Z.land_spec, Z.shiftl_1_l, Z.pow2_bits_eqb by lia.
    rewrite (Z.eqb_sym b n). apply andb_comm. }
  destruct (Z.testbit x b) eqn:Hx; simpl.
  - apply Z.eqb_neq. intros H0. specialize (Hbit b Hb).
    rewrite H0, Z.bits_0, Z.eqb_refl, Hx in Hbit. discriminate.
  - apply Z.eqb_eq. apply Z.bits_inj'. intros n Hn.
    rewrite Hbit, Z.bits_0 by exact Hn.
    destruct (Z.eqb_spec n b) as [-> | Hne]; [rewrite Hx | ]; reflexivity.
Qed.

Lemma gpio_output_options_set_loop (speed pin : Z) (n : nat) :
  forall lo ospeed,
    for_loop n lo (gpio_output_options_set_body speed pin) ospeed
    = for_loop n lo (pack_body 2 0 speed pin) ospeed.
Proof.
  induction n as [ | n IH]; intros lo ospeed; simpl for_loop.
  - reflexivity.
  - rewrite <- IH. f_equal.
    unfold gpio_output_options_set_body, pack_body, clear_set.
    unfold GPIO_OSPEED_MASK, GPIO_OSPEED_SET.
    rewrite Z.sub_0_r. destruct (pin_selected lo pin); reflexivity.
Qed.

Lemma gpio_output_options_set_regs (od gpio_periph otype speed pin : Z)
    (st : mcu) (r : reg) :
  regs (exec (gpio_output_options_set od gpio_periph otype speed pin) st) r
  = upd (upd (regs st) (GPIO_OMODE gpio_periph)
             (if od =? otype
              then Z.lor (regs st (GPIO_OMODE gpio_periph)) pin
              else Z.land (regs st (GPIO_OMODE gpio_periph)) (not32 pin)))
        (GPIO_OSPD gpio_periph)
        (for_loop 16 0 (pack_body 2 0 speed pin)
                  (regs st (GPIO_OSPD gpio_periph))) r.
Proof.
  unfold gpio_output_options_set, or_assign, and_assign.
  destruct (od =? otype);
    unfold exec, bind, load, store;
    cbn beta iota zeta delta [snd fst regs trace];
    rewrite gpio_output_options_set_loop;
    unfold latch, upd, GPIO_OMODE, GPIO_OSPD; simpl reg_eqb;
    rewrite Z.eqb_refl; reflexivity.
Qed.

(** ** GPIO: output options, port access, status getters *)

Section GpioOutputOptionsFacts.

Variable GPIO_OTYPE_OD : Z.

(** X6: [gpio_output_options_set] makes every selected pin open-drain (its
    GPIO_OMODE bit set) when [otype] equals GPIO_OTYPE_OD and push-pull (bit
    cleared) for every other [otype] value, and leaves the output-type bit
    of every unselected pin as it was. *)
Theorem gpio_output_options_set_type (st : mcu)
    (gpio_periph otype speed pin b : Z) :
  0 <= b < 32 ->
  Z.testbit
    (regs (exec (gpio_output_options_set GPIO_OTYPE_OD gpio_periph otype
                   speed pin) st)
          (GPIO_OMODE gpio_periph)) b
  = if Z.testbit pin b then GPIO_OTYPE_OD =? otype
    else Z.testbit (regs st (GPIO_OMODE gpio_periph)) b.
Proof.
  intros Hb. rewrite gpio_output_options_set_regs.
  unfold upd, GPIO_OMODE, GPIO_OSPD. simpl reg_eqb. rewrite Z.eqb_refl.
  simpl. destruct (GPIO_OTYPE_OD =? otype).
  - rewrite Z.lor_spec. destruct (Z.testbit pin b).
    + apply orb_true_r.
    + apply orb_false_r.
  - rewrite Z.land_spec, not32_bit by lia.
    destruct (Z.ltb_spec b 32); [ | lia].
    destruct (Z.testbit pin b); simpl.
    + apply andb_false_r.
    + apply andb_true_r.
Qed.

(** X7: [gpio_output_options_set], for a speed value in 0..3, leaves the
    speed in the 2-bit GPIO_OSPD field of every selected pin in [0,16) and
    leaves the field of every unselected pin as it was. *)
Theorem gpio_output_options_set_speed (st : mcu)
    (gpio_periph otype speed pin i : Z) :
  0 <= speed < 4 -> 0 <= i < 16 ->
  field2
    (regs (exec (gpio_output_options_set GPIO_OTYPE_OD gpio_periph otype
                   speed pin) st)
          (GPIO_OSPD gpio_periph)) i
  = if Z.testbit pin i then speed
    else field2 (regs st (GPIO_OSPD gpio_periph)) i.
Proof.
  intros Hs Hi. rewrite gpio_output_options_set_regs, upd_same.
  rewrite !field2_field. apply pack_loop16_field; assumption.
Qed.

(** X8: the three pin-configuration routines write registers of the port
    they are given only: every register outside that port's block (another
    port's registers, the EXTI registers) holds afterwards what it held
    before. *)
Theorem gpio_config_frame (st : mcu)
    (gpio_periph mode pull_up_down alt_func_num otype speed pin : Z)
    (r : reg) :
  (forall g, r <> GPIO gpio_periph g) ->
  regs (exec (gpio_mode_set gpio_periph mode pull_up_down pin) st) r
  = regs st r
  /\
  regs (exec (gpio_af_set gpio_periph alt_func_num pin) st) r = regs st r
  /\
  regs (exec (gpio_output_options_set GPIO_OTYPE_OD gpio_periph otype
                speed pin) st) r
  = regs st r.
Proof.
  intros Hr.
  assert (Hne : forall g, reg_eqb (GPIO gpio_periph g) r = false).
  { intros g. apply reg_eqb_neq. intros H. apply (Hr g). symmetry. exact H. }
  rewrite gpio_mode_set_regs, gpio_af_set_regs, gpio_output_options_set_regs.
  unfold GPIO_CTL, GPIO_PUD, GPIO_AFSEL0, GPIO_AFSEL1, GPIO_OMODE, GPIO_OSPD.
  rewrite !upd_other by apply Hne.
  repeat split.
Qed.

End GpioOutputOptionsFacts.

Lemma gpio_output_options_set_type_witness :
  0 <= 3 < 32 /\ 0 <= 4 < 32 /\
  Z.testbit (regs (exec (gpio_output_options_set 1 7 1 2 0x0008)
                        (mcu_all 0)) (GPIO_OMODE 7)) 3 = true /\
  Z.testbit (regs (exec (gpio_output_options_set 1 7 5 2 0x0018)
                        (mcu_all 0xFFFF)) (GPIO_OMODE 7)) 4 = false.
Proof.
  assert (H3 : 0 <= 3 < 32) by lia.
  assert (H4 : 0 <= 4 < 32) by lia.
  exact (conj H3 (conj H4 (conj
    (gpio_output_options_set_type 1 (mcu_all 0) 7 1 2 0x0008 3 H3)
    (gpio_output_options_set_type 1 (mcu_all 0xFFFF) 7 5 2 0x0018 4 H4)))).
Defined.

Lemma gpio_output_options_set_speed_witness :
  0 <= 2 < 4 /\ 0 <= 3 < 16 /\
  field2 (regs (exec (gpio_output_options_set 1 7 1 2 0x0008) (mcu_all 0))
               (GPIO_OSPD 7)) 3 = 2.
Proof.
  assert (Hs : 0 <= 2 < 4) by lia.
  assert (Hi : 0 <= 3 < 16) by lia.
  exact (conj Hs (conj Hi
    (gpio_output_options_set_speed 1 (mcu_all 0) 7 1 2 0x0008 3 Hs Hi))).
Defined.

Lemma gpio_config_frame_witness :
  (forall g, GPIO 8 CTL <> GPIO 7 g) /\
  regs (exec (gpio_mode_set 7 2 1 0xFFFF) (mcu_all 5)) (GPIO 8 CTL) = 5 /\
  regs (exec (gpio_af_set 7 9 0xFFFF) (mcu_all 5)) (GPIO 8 CTL) = 5 /\
  regs (exec (gpio_output_options_set 1 7 1 3 0xFFFF) (mcu_all 5))
       (GPIO 8 CTL) = 5.
Proof.
  assert (Hr : forall g, GPIO 8 CTL <> GPIO 7 g).
  { intros g H. injection H as Hp _. discriminate Hp. }
  exact (conj Hr
    (gpio_config_frame 1 (mcu_all 5) 7 2 1 9 1 3 0xFFFF (GPIO 8 CTL) Hr)).
Defined.

(** X9: every status getter of the two drivers ([gpio_input_bit_get],
    [gpio_output_bit_get], [gpio_sec_cfg_bit_get], [exti_flag_get],
    [exti_interrupt_flag_get]) returns RESET or SET, returns RESET exactly
    when no bit of the mask is set in the register it reads (so a mask of
    several pins reads SET as soon as one of them is set, and a zero mask
    always reads RESET), and changes no register. *)
Theorem bit_getters_result (gpio_periph mask : Z) (st : mcu) (r : reg)
    (get : Z -> M Z) :
  In (r, get) (bit_getters gpio_periph) ->
  (eval (get mask) st = RESET \/ eval (get mask) st = SET) /\
  (eval (get mask) st = RESET
   <-> forall n, 0 <= n -> Z.testbit (regs st r) n = true ->
                 Z.testbit mask n = false) /\
  regs (exec (get mask) st) = regs st.
Proof.
  intros Hin.
  assert (Hshape : get mask st
                   = (if negb (RESET =? Z.land (regs st r) mask)
                      then SET else RESET,
                      MkMcu (regs st) (trace st ++ [Rd r]))).
  { unfold bit_getters in Hin. simpl In in Hin.
    destruct Hin as [H | [H | [H | [H | [H | []]]]]];
      injection H as <- <-;
      unfold gpio_input_bit_get, gpio_output_bit_get, gpio_sec_cfg_bit_get,
        exti_flag_get, exti_interrupt_flag_get, bind, load, ret;
      cbn beta iota zeta delta [snd fst regs trace];
      match goal with
      | |- context [negb ?c] => destruct c
      end; reflexivity. }
  unfold eval, exec. rewrite Hshape. cbn [fst snd regs].
  rewrite <- land_zero_iff. unfold RESET, SET.
  destruct (Z.eqb_spec 0 (Z.land (regs st r) mask)) as [H0 | H0]; simpl.
  - repeat split; auto.
  - repeat split; auto; intros H; try discriminate.
    exfalso. apply H0. symmetry. exact H.
Qed.

Lemma bit_getters_result_witness :
  In (GPIO_ISTAT 7, gpio_input_bit_get 7) (bit_getters 7) /\
  (eval (gpio_input_bit_get 7 0x0003) (mcu_all 0x0002) = RESET \/
   eval (gpio_input_bit_get 7 0x0003) (mcu_all 0x0002) = SET) /\
  (eval (gpio_input_bit_get 7 0x0003) (mcu_all 0x0002) = RESET
   <-> forall n, 0 <= n ->
         Z.testbit (regs (mcu_all 0x0002) (GPIO_ISTAT 7)) n = true ->
         Z.testbit 0x0003 n = false) /\
  regs (exec (gpio_input_bit_get 7 0x0003) (mcu_all 0x0002))
  = regs (mcu_all 0x0002).
Proof.
  assert (Hin : In (GPIO_ISTAT 7, gpio_input_bit_get 7) (bit_getters 7))
    by (left; reflexivity).
  exact (conj Hin
    (bit_getters_result 7 0x0003 (mcu_all 0x0002) (GPIO_ISTAT 7)
       (gpio_input_bit_get 7) Hin)).
Defined.

Lemma wrap16_bit (x b : Z) :
  Z.testbit (wrap16 x) b = (b <? 16) && Z.testbit x b.
Proof.
  unfold wrap16. apply Z.testbit_mod_pow2. lia.
Qed.

(** X10: what [gpio_port_write] writes is what [gpio_output_port_get] reads
    back, for every 16-bit data value; [gpio_output_bit_get] then reads SET
    exactly for the masks that share a bit with the data. *)
Theorem gpio_port_write_read_back (st : mcu) (gpio_periph data pin : Z) :
  0 <= data < 2 ^ 16 ->
  let st' := exec (gpio_port_write gpio_periph data) st in
  eval (gpio_output_port_get gpio_periph) st' = data /\
  eval (gpio_output_bit_get gpio_periph pin) st'
  = if Z.land data pin =? 0 then RESET else SET.
Proof.
  intros Hd st'. subst st'.
  unfold eval, exec, gpio_output_port_get, gpio_output_bit_get,
    gpio_port_write, bind, load, store, ret.
  cbn beta iota zeta delta [snd fst regs trace].
  rewrite upd_same. unfold latch, GPIO_OCTL. split.
  - unfold wrap16. apply Z.mod_small. exact Hd.
  - unfold RESET. rewrite (Z.eqb_sym 0).
    destruct (Z.land data pin =? 0); reflexivity.
Qed.

Lemma gpio_port_write_read_back_witness :
  0 <= 0xA5A5 < 2 ^ 16 /\
  let st' := exec (gpio_port_write 7 0xA5A5) (mcu_all 0) in
  eval (gpio_output_port_get 7) st' = 0xA5A5 /\
  eval (gpio_output_bit_get 7 0x0002) st'
  = if Z.land 0xA5A5 0x0002 =? 0 then RESET else SET.
Proof.
  assert (Hd : 0 <= 0xA5A5 < 2 ^ 16) by (simpl; lia).
  exact (conj Hd (gpio_port_write_read_back (mcu_all 0) 7 0xA5A5 0x0002 Hd)).
Defined.

(** X11: the port getters return a 16-bit value whose bit [b] is the one
    the matching bit getter reports for the single-pin mask [1 << b]: bit
    [b] of [gpio_input_port_get] is set exactly when [gpio_input_bit_get]
    returns SET for pin [b], and likewise for the output getters. *)
Theorem gpio_port_get_agrees_with_bit_get (st : mcu) (gpio_periph b : Z) :
  0 <= b < 16 ->
  (0 <= eval (gpio_input_port_get gpio_periph) st < 2 ^ 16 /\
   0 <= eval (gpio_output_port_get gpio_periph) st < 2 ^ 16) /\
  (Z.testbit (eval (gpio_input_port_get gpio_periph) st) b = true
   <-> eval (gpio_input_bit_get gpio_periph (Z.shiftl 1 b)) st = SET) /\
  (Z.testbit (eval (gpio_output_port_get gpio_periph) st) b = true
   <-> eval (gpio_output_bit_get gpio_periph (Z.shiftl 1 b)) st = SET).
Proof.
  intros Hb.
  unfold eval, gpio_input_port_get, gpio_output_port_get,
    gpio_input_bit_get, gpio_output_bit_get, bind, load, ret.
  cbn beta iota zeta delta [snd fst regs trace].
  split; [split; apply Z.mod_pos_bound; lia | ].
  rewrite !wrap16_bit.
  destruct (Z.ltb_spec b 16) as [_ | Hge]; [ | lia]. simpl andb.
  unfold RESET. rewrite !(Z.eqb_sym 0), !land_single_bit by lia.
  rewrite !negb_involutive.
  split.
  - destruct (Z.testbit (regs st (GPIO_ISTAT gpio_periph)) b); simpl;
      split; intros Hx; try reflexivity; discriminate.
  - destruct (Z.testbit (regs st (GPIO_OCTL gpio_periph)) b); simpl;
      split; intros Hx; try reflexivity; discriminate.
Qed.

Lemma gpio_port_get_agrees_with_bit_get_witness :
  0 <= 5 < 16 /\
  (0 <= eval (gpio_input_port_get 7) (mcu_all 0x12345678) < 2 ^ 16 /\
   0 <= eval (gpio_output_port_get 7) (mcu_all 0x12345678) < 2 ^ 16) /\
  (Z.testbit (eval (gpio_input_port_get 7) (mcu_all 0x12345678)) 5 = true
   <-> eval (gpio_input_bit_get 7 (Z.shiftl 1 5)) (mcu_all 0x12345678)
       = SET) /\
  (Z.testbit (eval (gpio_output_port_get 7) (mcu_all 0x12345678)) 5 = true
   <-> eval (gpio_output_bit_get 7 (Z.shiftl 1 5)) (mcu_all 0x12345678)
       = SET).
Proof.
  assert (Hb : 0 <= 5 < 16) by lia.
  exact (conj Hb
    (gpio_port_get_agrees_with_bit_get (mcu_all 0x12345678) 7 5 Hb)).
Defined.

(** X12: after [gpio_bit_set_sec_cfg] with a non-zero pin mask,
    [gpio_sec_cfg_bit_get] with the same mask returns SET; after
    [gpio_bit_reset_sec_cfg], it returns RESET, for every mask. *)
Theorem gpio_sec_cfg_set_reset_get (st : mcu) (gpio_periph pin : Z) :
  (pin <> 0 ->
   eval (gpio_sec_cfg_bit_get gpio_periph pin)
        (exec (gpio_bit_set_sec_cfg gpio_periph pin) st) = SET)
  /\
  eval (gpio_sec_cfg_bit_get gpio_periph pin)
       (exec (gpio_bit_reset_sec_cfg gpio_periph pin) st) = RESET.
Proof.
  unfold eval, exec, gpio_sec_cfg_bit_get, gpio_bit_set_sec_cfg,
    gpio_bit_reset_sec_cfg, or_assign, bind, load, store, ret.
  cbn beta iota zeta delta [snd fst regs trace].
  rewrite !upd_same. unfold latch, GPIO_SCFG, RESET. split.
  - intros Hpin.
    assert (Hl : Z.land (Z.lor (regs st (GPIO gpio_periph SCFG)) pin) pin
                 = pin).
    { apply Z.bits_inj'. intros n _. rewrite Z.land_spec, Z.lor_spec.
      btauto. }
    rewrite Hl. destruct (Z.eqb_spec 0 pin) as [H0 | H0].
    + exfalso. apply Hpin. symmetry. exact H0.
    + reflexivity.
  - assert (Hl : Z.land (Z.land (regs st (GPIO gpio_periph SCFG))
                                (not32 pin)) pin = 0).
    { apply Z.bits_inj'. intros n Hn.
      rewrite !Z.land_spec, not32_bit, Z.bits_0 by exact Hn. btauto. }
    rewrite Hl. reflexivity.
Qed.

Lemma gpio_sec_cfg_set_reset_get_witness :
  0x0010 <> 0 /\
  eval (gpio_sec_cfg_bit_get 7 0x0010)
       (exec (gpio_bit_set_sec_cfg 7 0x0010) (mcu_all 0)) = SET /\
  eval (gpio_sec_cfg_bit_get 7 0x0010)
       (exec (gpio_bit_reset_sec_cfg 7 0x0010) (mcu_all 0xFFFF)) = RESET.
Proof.
  assert (Hp : 0x0010 <> 0) by discriminate.
  destruct (gpio_sec_cfg_set_reset_get (mcu_all 0) 7 0x0010) as [Hset _].
  destruct (gpio_sec_cfg_set_reset_get (mcu_all 0xFFFF) 7 0x0010)
    as [_ Hreset].
  exact (conj Hp (conj (Hset Hp) Hreset)).
Defined.

(** ** EXTI: line initialisation and reset *)

Ltac exti_regs_step :=
  rewrite ?exec_bind, ?exec_ret, ?regs_or_assign, ?regs_and_assign;
  unfold upd at 1; simpl reg_eqb; cbv beta iota.

Ltac exti_bits b :=
  unfold latch, EXTI_INTEN, EXTI_EVEN, EXTI_RTEN, EXTI_FTEN;
  repeat first [ rewrite Z.lor_spec | rewrite Z.land_spec
               | rewrite not32_bit by lia ];
  destruct (Z.ltb_spec b 32); [ | lia];
  repeat match goal with
         | |- context [Z.testbit ?x b] => destruct (Z.testbit x b)
         end;
  reflexivity.

Section ExtiInitFacts.

Variables EXTI_INTERRUPT EXTI_EVENT : Z.
Variables EXTI_TRIG_RISING EXTI_TRIG_FALLING EXTI_TRIG_BOTH : Z.

Lemma exti_init_bits (st : mcu) (linex mode trig_type b : Z) :
  EXTI_INTERRUPT <> EXTI_EVENT ->
  EXTI_TRIG_RISING <> EXTI_TRIG_FALLING ->
  EXTI_TRIG_RISING <> EXTI_TRIG_BOTH ->
  EXTI_TRIG_FALLING <> EXTI_TRIG_BOTH ->
  0 <= b < 32 ->
  let st' := exec (exti_init EXTI_INTERRUPT EXTI_EVENT EXTI_TRIG_RISING
                     EXTI_TRIG_FALLING EXTI_TRIG_BOTH
                     linex mode trig_type) st in
  Z.testbit (regs st' EXTI_INTEN) b
  = (if Z.testbit linex b then mode =? EXTI_INTERRUPT
     else Z.testbit (regs st EXTI_INTEN) b) /\
  Z.testbit (regs st' EXTI_EVEN) b
  = (if Z.testbit linex b then mode =? EXTI_EVENT
     else Z.testbit (regs st EXTI_EVEN) b) /\
  Z.testbit (regs st' EXTI_RTEN) b
  = (if Z.testbit linex b
     then (trig_type =? EXTI_TRIG_RISING) || (trig_type =? EXTI_TRIG_BOTH)
     else Z.testbit (regs st EXTI_RTEN) b) /\
  Z.testbit (regs st' EXTI_FTEN) b
  = (if Z.testbit linex b
     then (trig_type =? EXTI_TRIG_FALLING) || (trig_type =? EXTI_TRIG_BOTH)
     else Z.testbit (regs st EXTI_FTEN) b).
Proof.
  intros Hie Hrf Hrb Hfb Hb st'. subst st'. unfold exti_init.
  destruct (Z.eqb_spec mode EXTI_INTERRUPT), (Z.eqb_spec mode EXTI_EVENT),
    (Z.eqb_spec trig_type EXTI_TRIG_RISING),
    (Z.eqb_spec trig_type EXTI_TRIG_FALLING),
    (Z.eqb_spec trig_type EXTI_TRIG_BOTH);
    try (exfalso; congruence);
    repeat split; repeat exti_regs_step; exti_bits b.
Qed.

(** X13: [exti_init], the enumerators being distinct, configures exactly
    the lines of the mask: for each of them the interrupt enable bit is set
    only for mode EXTI_INTERRUPT, the event enable bit only for mode
    EXTI_EVENT, the rising-edge bit only for triggers RISING and BOTH, the
    falling-edge bit only for triggers FALLING and BOTH (any other mode or
    trigger value leaves the bits cleared); the bits of every other line
    are unchanged. *)
Theorem exti_init_line_config (st : mcu) (linex mode trig_type b : Z) :
  EXTI_INTERRUPT <> EXTI_EVENT ->
  EXTI_TRIG_RISING <> EXTI_TRIG_FALLING ->
  EXTI_TRIG_RISING <> EXTI_TRIG_BOTH ->
  EXTI_TRIG_FALLING <> EXTI_TRIG_BOTH ->
  0 <= b < 32 ->
  let st' := exec (exti_init EXTI_INTERRUPT EXTI_EVENT EXTI_TRIG_RISING
                     EXTI_TRIG_FALLING EXTI_TRIG_BOTH
                     linex mode trig_type) st in
  Z.testbit (regs st' EXTI_INTEN) b
  = (if Z.testbit linex b then mode =? EXTI_INTERRUPT
     else Z.testbit (regs st EXTI_INTEN) b) /\
  Z.testbit (regs st' EXTI_EVEN) b
  = (if Z.testbit linex b then mode =? EXTI_EVENT
     else Z.testbit (regs st EXTI_EVEN) b) /\
  Z.testbit (regs st' EXTI_RTEN) b
  = (if Z.testbit linex b
     then (trig_type =? EXTI_TRIG_RISING) || (trig_type =? EXTI_TRIG_BOTH)
     else Z.testbit (regs st EXTI_RTEN) b) /\
  Z.testbit (regs st' EXTI_FTEN) b
  = (if Z.testbit linex b
     then (trig_type =? EXTI_TRIG_FALLING) || (trig_type =? EXTI_TRIG_BOTH)
     else Z.testbit (regs st EXTI_FTEN) b).
Proof.
  exact (exti_init_bits st linex mode trig_type b).
Qed.

(** X14: two calls of [exti_init] compose line by line: afterwards a line
    of the second mask has the interrupt and rising-edge configuration of
    the second call, whatever the first call did to it, and a line of the
    first mask only keeps the configuration of the first call. *)
Theorem exti_init_twice (st : mcu)
    (line1 mode1 trig1 line2 mode2 trig2 b : Z) :
  EXTI_INTERRUPT <> EXTI_EVENT ->
  EXTI_TRIG_RISING <> EXTI_TRIG_FALLING ->
  EXTI_TRIG_RISING <> EXTI_TRIG_BOTH ->
  EXTI_TRIG_FALLING <> EXTI_TRIG_BOTH ->
  0 <= b < 32 ->
  let init := exti_init EXTI_INTERRUPT EXTI_EVENT EXTI_TRIG_RISING
                EXTI_TRIG_FALLING EXTI_TRIG_BOTH in
  let st' := exec (init line2 mode2 trig2)
                  (exec (init line1 mode1 trig1) st) in
  Z.testbit (regs st' EXTI_INTEN) b
  = (if Z.testbit line2 b then mode2 =? EXTI_INTERRUPT
     else if Z.testbit line1 b then mode1 =? EXTI_INTERRUPT
     else Z.testbit (regs st EXTI_INTEN) b) /\
  Z.testbit (regs st' EXTI_EVEN) b
  = (if Z.testbit line2 b then mode2 =? EXTI_EVENT
     else if Z.testbit line1 b then mode1 =? EXTI_EVENT
     else Z.testbit (regs st EXTI_EVEN) b) /\
  Z.testbit (regs st' EXTI_RTEN) b
  = (if Z.testbit line2 b
     then (trig2 =? EXTI_TRIG_RISING) || (trig2 =? EXTI_TRIG_BOTH)
     else if Z.testbit line1 b
     then (trig1 =? EXTI_TRIG_RISING) || (trig1 =? EXTI_TRIG_BOTH)
     else Z.testbit (regs st EXTI_RTEN) b) /\
  Z.testbit (regs st' EXTI_FTEN) b
  = (if Z.testbit line2 b
     then (trig2 =? EXTI_TRIG_FALLING) || (trig2 =? EXTI_TRIG_BOTH)
     else if Z.testbit line1 b
     then (trig1 =? EXTI_TRIG_FALLING) || (trig1 =? EXTI_TRIG_BOTH)
     else Z.testbit (regs st EXTI_FTEN) b).
Proof.
  intros Hie Hrf Hrb Hfb Hb init st'. subst st' init.
  destruct (exti_init_bits
              (exec (exti_init EXTI_INTERRUPT EXTI_EVENT EXTI_TRIG_RISING
                       EXTI_TRIG_FALLING EXTI_TRIG_BOTH line1 mode1 trig1)
                    st)
              line2 mode2 trig2 b Hie Hrf Hrb Hfb Hb)
    as (H2i & H2e & H2r & H2f).
  destruct (exti_init_bits st line1 mode1 trig1 b Hie Hrf Hrb Hfb Hb)
    as (H1i & H1e & H1r & H1f).
  rewrite H2i, H2e, H2r, H2f, H1i, H1e, H1r, H1f.
  repeat split.
Qed.

(** X15: [exti_init] writes EXTI_INTEN, EXTI_EVEN, EXTI_RTEN and EXTI_FTEN
    only: every other register (the pending, software-interrupt, security,
    privilege and lock registers, every GPIO register) holds afterwards what
    it held before, for every line mask, mode and trigger value. *)
Theorem exti_init_frame (st : mcu) (linex mode trig_type : Z) (r : reg) :
  r <> EXTI_INTEN -> r <> EXTI_EVEN -> r <> EXTI_RTEN -> r <> EXTI_FTEN ->
  regs (exec (exti_init EXTI_INTERRUPT EXTI_EVENT EXTI_TRIG_RISING
                EXTI_TRIG_FALLING EXTI_TRIG_BOTH
                linex mode trig_type) st) r
  = regs st r.
Proof.
  intros Hi He Hr Hf.
  assert (Ei : reg_eqb EXTI_INTEN r = false)
    by (apply reg_eqb_neq; congruence).
  assert (Ee : reg_eqb EXTI_EVEN r = false)
    by (apply reg_eqb_neq; congruence).
  assert (Er : reg_eqb EXTI_RTEN r = false)
    by (apply reg_eqb_neq; congruence).
  assert (Ef : reg_eqb EXTI_FTEN r = false)
    by (apply reg_eqb_neq; congruence).
  unfold exti_init.
  destruct (mode =? EXTI_INTERRUPT), (mode =? EXTI_EVENT),
    (trig_type =? EXTI_TRIG_RISING), (trig_type =? EXTI_TRIG_FALLING),
    (trig_type =? EXTI_TRIG_BOTH);
    repeat (rewrite ?exec_bind, ?exec_ret, ?regs_or_assign, ?regs_and_assign;
            rewrite upd_other by assumption);
    reflexivity.
Qed.

End ExtiInitFacts.

Lemma exti_init_line_config_witness :
  0 <> 1 /\ 0 <> 1 /\ 0 <> 2 /\ 1 <> 2 /\ 0 <= 3 < 32 /\
  let st' := exec (exti_init 0 1 0 1 2 0x8 0 2) (mcu_all 0) in
  Z.testbit (regs st' EXTI_INTEN) 3 = true /\
  Z.testbit (regs st' EXTI_EVEN) 3 = false /\
  Z.testbit (regs st' EXTI_RTEN) 3 = true /\
  Z.testbit (regs st' EXTI_FTEN) 3 = true.
Proof.
  assert (H01 : 0 <> 1) by discriminate.
  assert (H02 : 0 <> 2) by discriminate.
  assert (H12 : 1 <> 2) by discriminate.
  assert (Hb : 0 <= 3 < 32) by lia.
  split; [exact H01 | split; [exact H01 | split; [exact H02 | ]]].
  split; [exact H12 | split; [exact Hb | ]].
  exact (exti_init_line_config 0 1 0 1 2 (mcu_all 0) 0x8 0 2 3
           H01 H01 H02 H12 Hb).
Defined.

Lemma exti_init_twice_witness :
  0 <> 1 /\ 0 <> 1 /\ 0 <> 2 /\ 1 <> 2 /\ 0 <= 3 < 32 /\
  let st' := exec (exti_init 0 1 0 1 2 0x8 1 1)
                  (exec (exti_init 0 1 0 1 2 0xC 0 0) (mcu_all 0)) in
  Z.testbit (regs st' EXTI_INTEN) 3 = false /\
  Z.testbit (regs st' EXTI_EVEN) 3 = true /\
  Z.testbit (regs st' EXTI_RTEN) 3 = false /\
  Z.testbit (regs st' EXTI_FTEN) 3 = true.
Proof.
  assert (H01 : 0 <> 1) by discriminate.
  assert (H02 : 0 <> 2) by discriminate.
  assert (H12 : 1 <> 2) by discriminate.
  assert (Hb : 0 <= 3 < 32) by lia.
  split; [exact H01 | split; [exact H01 | split; [exact H02 | ]]].
  split; [exact H12 | split; [exact Hb | ]].
  exact (exti_init_twice 0 1 0 1 2 (mcu_all 0) 0xC 0 0 0x8 1 1 3
           H01 H01 H02 H12 Hb).
Defined.

Lemma exti_init_frame_witness :
  EXTI_PD <> EXTI_INTEN /\ EXTI_PD <> EXTI_EVEN /\ EXTI_PD <> EXTI_RTEN /\
  EXTI_PD <> EXTI_FTEN /\
  regs (exec (exti_init 0 1 0 1 2 0xFFFFFFFF 0 2) (mcu_all 5)) EXTI_PD = 5.
Proof.
  assert (Hi : EXTI_PD <> EXTI_INTEN) by discriminate.
  assert (He : EXTI_PD <> EXTI_EVEN) by discriminate.
  assert (Hr : EXTI_PD <> EXTI_RTEN) by discriminate.
  assert (Hf : EXTI_PD <> EXTI_FTEN) by discriminate.
  exact (conj Hi (conj He (conj Hr (conj Hf
    (exti_init_frame 0 1 0 1 2 (mcu_all 5) 0xFFFFFFFF 0 2 EXTI_PD
       Hi He Hr Hf))))).
Defined.

(** X16: [exti_deinit] leaves EXTI_INTEN at [0x0F940000] and the event,
    rising, falling, software-interrupt, security and privilege registers at
    zero whatever they held; it does not touch the pending register (every
    [exti_flag_get] reads as before), the lock register, or any GPIO
    register. *)
Theorem exti_deinit_result (st : mcu) :
  let st' := exec exti_deinit st in
  (regs st' EXTI_INTEN = 0x0F940000 /\
   regs st' EXTI_EVEN = 0 /\ regs st' EXTI_RTEN = 0 /\
   regs st' EXTI_FTEN = 0 /\ regs st' EXTI_SWIEV = 0 /\
   regs st' EXTI_SECCFG = 0 /\ regs st' EXTI_PRIVCFG = 0) /\
  regs st' EXTI_PD = regs st EXTI_PD /\
  regs st' EXTI_LOCK = regs st EXTI_LOCK /\
  (forall p g, regs st' (GPIO p g) = regs st (GPIO p g)) /\
  (forall linex,
     eval (exti_flag_get linex) st' = eval (exti_flag_get linex) st).
Proof.
  intros st'. subst st'. repeat split; intros; try reflexivity.
  unfold eval, exti_flag_get, bind, load.
  cbn beta iota zeta delta [snd fst regs trace].
  replace (regs (exec exti_deinit st) EXTI_PD) with (regs st EXTI_PD)
    by reflexivity.
  destruct (negb (RESET =? Z.land (regs st EXTI_PD) linex)); reflexivity.
Qed.

(** ** Enable and disable routines, one at a time *)

Lemma toggle_pairs_each (gpio_periph : Z) (r : reg)
    (en dis : Z -> M unit) :
  In (r, en, dis) (toggle_pairs gpio_periph) ->
  (forall old v, latch r old v = v) /\
  forall l st,
    exec (en l) st = exec (or_assign r l) st /\
    exec (dis l) st = exec (and_assign r (not32 l)) st.
Proof.
  unfold toggle_pairs. simpl In.
  intros [H | [H | [H | [H | [H | [H | []]]]]]];
    injection H as <- <- <-; (split; [reflexivity | ]);
    intros l st; split; reflexivity.
Qed.

(** X17: each enable routine of the drivers (EXTI interrupt, event,
    software interrupt, security, privilege; GPIO secure configuration) sets
    the bits of its mask in its register and each disable routine clears
    them; both keep every other bit of the 32-bit register and every other
    register. *)
Theorem enable_disable_bits (gpio_periph linex : Z) (st : mcu) (r : reg)
    (en dis : Z -> M unit) (b : Z) :
  In (r, en, dis) (toggle_pairs gpio_periph) ->
  0 <= b < 32 ->
  (Z.testbit (regs (exec (en linex) st) r) b
   = Z.testbit (regs st r) b || Z.testbit linex b) /\
  (Z.testbit (regs (exec (dis linex) st) r) b
   = Z.testbit (regs st r) b && negb (Z.testbit linex b)) /\
  (forall s, s <> r ->
     regs (exec (en linex) st) s = regs st s /\
     regs (exec (dis linex) st) s = regs st s).
Proof.
  intros Hin Hb.
  destruct (toggle_pairs_each gpio_periph r en dis Hin) as [Hlatch Hshape].
  destruct (Hshape linex st) as [Hen Hdis]. rewrite Hen, Hdis.
  rewrite regs_or_assign, regs_and_assign, !upd_same, !Hlatch.
  rewrite Z.lor_spec, Z.land_spec, not32_bit by lia.
  destruct (Z.ltb_spec b 32); [ | lia].
  repeat split.
  - rewrite regs_or_assign. apply upd_other. apply reg_eqb_neq. congruence.
  - rewrite regs_and_assign. apply upd_other. apply reg_eqb_neq. congruence.
Qed.

Lemma enable_disable_bits_witness :
  In (EXTI_EVEN, exti_event_enable, exti_event_disable) (toggle_pairs 7) /\
  0 <= 4 < 32 /\
  (Z.testbit (regs (exec (exti_event_enable 0x10) (mcu_all 0)) EXTI_EVEN) 4
   = Z.testbit (regs (mcu_all 0) EXTI_EVEN) 4 || Z.testbit 0x10 4) /\
  (Z.testbit (regs (exec (exti_event_disable 0x10) (mcu_all 0)) EXTI_EVEN) 4
   = Z.testbit (regs (mcu_all 0) EXTI_EVEN) 4 && negb (Z.testbit 0x10 4)) /\
  (forall s, s <> EXTI_EVEN ->
     regs (exec (exti_event_enable 0x10) (mcu_all 0)) s
     = regs (mcu_all 0) s /\
     regs (exec (exti_event_disable 0x10) (mcu_all 0)) s
     = regs (mcu_all 0) s).
Proof.
  assert (Hin : In (EXTI_EVEN, exti_event_enable, exti_event_disable)
                   (toggle_pairs 7)) by (right; left; reflexivity).
  assert (Hb : 0 <= 4 < 32) by lia.
  exact (conj Hin (conj Hb
    (enable_disable_bits 7 0x10 (mcu_all 0) EXTI_EVEN
       exti_event_enable exti_event_disable 4 Hin Hb))).
Defined.
